(** * VolatilityFormatter: calibration, transformation and inverse scaling

    A shallow embedding of
    [Temporal_Fusion_Transform/data_formatters/volatility.py].

    The formatter reads pandas data frames, calibrates two
    [sklearn.preprocessing.StandardScaler] objects and one
    [sklearn.preprocessing.LabelEncoder] per categorical column, and
    rewrites columns of copies of the frames it is given.  The formatter
    and the data frames are mutable Python objects: the methods run in a
    state that holds the attributes of the formatter and a heap of frames,
    and they take and return references to frames.  Python exceptions are
    values of [exn].

    Floating point is idealised: a Python float is a real number, and the
    statistics of a scaler are computed in exact real arithmetic. *)

From Stdlib Require Import String Ascii List ZArith Reals Lra Lia Bool.
From Stdlib Require Import ROrderedType Sorted Permutation OrdersEx DecimalString.
From Stdlib Require Import RelationClasses.
Import ListNotations.

(** ** Exceptions and the error monad *)

Inductive exn : Type :=
| ValueError (msg : string)
| KeyError (key : string)
| AttributeError (msg : string)
| TypeError (msg : string).

Inductive result (A : Type) : Type :=
| Ok (a : A)
| Err (e : exn).

Arguments Ok {A} a.
Arguments Err {A} e.

Definition rbind {A B} (r : result A) (f : A -> result B) : result B :=
  match r with
  | Ok a => f a
  | Err e => Err e
  end.

Declare Scope result_scope.
Delimit Scope result_scope with result.
Notation "x <- r ;; k" := (rbind r (fun x => k))
  (at level 61, r at next level, right associativity) : result_scope.

Fixpoint mapM {A B} (f : A -> result B) (l : list A) : result (list B) :=
  match l with
  | [] => Ok []
  | a :: l' =>
      (b <- f a ;;
       bs <- mapM f l' ;;
       Ok (b :: bs))%result
  end.

(** ** Cells, columns and frames *)

(** A cell of a frame: a float, an integer or a string.  A numeric column
    of a pandas frame holds floats or holds integers. *)
Inductive cell : Type :=
| Num (x : R)
| Int (n : Z)
| Str (s : string).

Definition cell_eq_dec (a b : cell) : {a = b} + {a <> b}.
Proof.
  decide equality.
  - apply Req_dec_T.
  - apply Z.eq_dec.
  - apply string_dec.
Defined.

(** A frame is the ordered list of its named columns.  In a frame built by
    pandas every column has the same number of rows. *)
Definition Series := list cell.
Definition DataFrame := list (string * Series).

Definition columns (df : DataFrame) : list string := map fst df.

(** [df[col]] *)
Fixpoint df_getitem (df : DataFrame) (col : string) : result Series :=
  match df with
  | [] => Err (KeyError col)
  | (c, s) :: df' => if String.eqb c col then Ok s else df_getitem df' col
  end.

(** [df[cols]] for a list of names: the selected columns, in the order of
    [cols]. *)
Definition df_getitems (df : DataFrame) (cols : list string)
  : result (list Series) :=
  mapM (df_getitem df) cols.

(** [df[col] = values]: replaces the column named [col], or appends it when
    the frame has no such column. *)
Fixpoint df_setitem (df : DataFrame) (col : string) (values : Series)
  : DataFrame :=
  match df with
  | [] => [(col, values)]
  | (c, s) :: df' =>
      if String.eqb c col then (c, values) :: df'
      else (c, s) :: df_setitem df' col values
  end.

(** [df[cols] = array], the array given by its columns. *)
Fixpoint df_setitems (df : DataFrame) (cols : list string)
  (values : list Series) : DataFrame :=
  match cols, values with
  | c :: cols', v :: values' => df_setitems (df_setitem df c v) cols' values'
  | _, _ => df
  end.

(** [df.loc[mask]] for a boolean mask: the rows at which the mask holds. *)
Fixpoint select {A} (mask : list bool) (l : list A) : list A :=
  match mask, l with
  | b :: mask', x :: l' => if b then x :: select mask' l' else select mask' l'
  | _, _ => []
  end.

Definition df_loc (df : DataFrame) (mask : list bool) : DataFrame :=
  map (fun cs => (fst cs, select mask (snd cs))) df.

(** [series.unique()] and the count [series.nunique()]: the distinct values
    in order of appearance, found with a table of the values seen so far. *)
Section Unique.
Variable A : Type.
Variable eq_dec : forall a b : A, {a = b} + {a <> b}.

Fixpoint unique_from (seen : list A) (s : list A) : list A :=
  match s with
  | [] => []
  | x :: s' =>
      if in_dec eq_dec x seen then unique_from seen s'
      else x :: unique_from (x :: seen) s'
  end.

Definition unique (s : list A) : list A := unique_from [] s.

Definition nunique (s : list A) : nat := length (unique s).
End Unique.

Arguments unique_from {A} eq_dec seen s.
Arguments unique {A} eq_dec s.
Arguments nunique {A} eq_dec s.

(** ** Numbers

    [str] of a float and [float] of a string are Python primitives on the
    machine representation; they are taken as given. *)
Section Volatility.

Variable float_repr : R -> string.
Variable float_of_str : string -> option R.

(** [str(x)], used by [df[col].apply(str)]. *)
Definition py_str (c : cell) : string :=
  match c with
  | Num x => float_repr x
  | Int n => NilZero.string_of_int (Z.to_int n)
  | Str s => s
  end.

(** Conversion of a cell to a float, as numpy does for a float array. *)
Definition to_float (c : cell) : result R :=
  match c with
  | Num x => Ok x
  | Int n => Ok (IZR n)
  | Str s =>
      match float_of_str s with
      | Some x => Ok x
      | None => Err (ValueError "could not convert string to float")
      end
  end.

Definition num_val (c : cell) : R :=
  match c with
  | Num x => x
  | Int n => IZR n
  | Str _ => 0%R
  end.

(** Python's ordering of two cells: numbers by value, strings
    lexicographically, and a [TypeError] for a string against a number. *)
Definition cell_compare (a b : cell) : result comparison :=
  match a, b with
  | Int x, Int y => Ok (x ?= y)%Z
  | Str s, Str t => Ok (String_as_OT.compare s t)
  | Str _, _ | _, Str _ =>
      Err (TypeError "'<' not supported between instances of 'str' and 'int'")
  | _, _ => Ok (Rcompare (num_val a) (num_val b))
  end.

Definition is_lt (c : comparison) : bool :=
  match c with Lt => true | _ => false end.

(** [series < bound] and [series >= bound], elementwise. *)
Definition series_lt (s : Series) (bound : cell) : result (list bool) :=
  mapM (fun x => (c <- cell_compare x bound ;; Ok (is_lt c))%result) s.

Definition series_ge (s : Series) (bound : cell) : result (list bool) :=
  mapM (fun x => (c <- cell_compare x bound ;; Ok (negb (is_lt c)))%result) s.

(** [m1 & m2] *)
Definition mask_and (m1 m2 : list bool) : list bool :=
  map (fun p => andb (fst p) (snd p)) (combine m1 m2).

(** ** sklearn.preprocessing.StandardScaler *)

Definition Rsum (xs : list R) : R := fold_right Rplus 0%R xs.

Definition mean (xs : list R) : R := (Rsum xs / INR (length xs))%R.

Definition variance (xs : list R) : R :=
  mean (map (fun x => ((x - mean xs) * (x - mean xs))%R) xs).

(** A constant feature is left unscaled. *)
Definition handle_zeros_in_scale (s : R) : R :=
  if Req_dec_T s 0%R then 1%R else s.

(** A fitted scaler holds, for each feature, its mean and its scale. *)
Record StandardScaler : Type := { stats : list (R * R) }.

Definition mean_ (sc : StandardScaler) : list R := map fst (stats sc).
Definition scale_ (sc : StandardScaler) : list R := map snd (stats sc).

(** A two-dimensional array is given by its columns; [n_samples] is its
    number of rows. *)
Definition n_samples {A} (X : list (list A)) : nat := length (hd [] X).

(** Input validation: every entry converts to a float and there is at least
    one row. *)
Definition check_array (X : list Series) : result (list (list R)) :=
  (Xf <- mapM (mapM to_float) X ;;
   if Nat.eqb (n_samples Xf) 0
   then Err (ValueError "Found array with 0 sample(s) while a minimum of 1 is required")
   else Ok Xf)%result.

Definition fit_column (xs : list R) : R * R :=
  (mean xs, handle_zeros_in_scale (sqrt (variance xs))).

Definition StandardScaler_fit (X : list Series) : result StandardScaler :=
  (Xf <- check_array X ;; Ok {| stats := map fit_column Xf |})%result.

Definition standardize (ms : R * R) (x : R) : cell :=
  Num ((x - fst ms) / snd ms)%R.

Fixpoint scale_columns (st : list (R * R)) (Xf : list (list R))
  : list Series :=
  match st, Xf with
  | ms :: st', c :: Xf' => map (standardize ms) c :: scale_columns st' Xf'
  | _, _ => []
  end.

Definition StandardScaler_transform (sc : StandardScaler) (X : list Series)
  : result (list Series) :=
  (Xf <- check_array X ;;
   if Nat.eqb (length Xf) (length (stats sc))
   then Ok (scale_columns (stats sc) Xf)
   else Err (ValueError "X has a different number of features than StandardScaler is expecting"))%result.

Definition unstandardize (ms : R * R) (x : R) : cell :=
  Num (x * snd ms + fst ms)%R.

(** [inverse_transform] of one series, for a scaler fitted on one feature:
    the series is validated as a float array with at least one entry, then
    multiplied by the scale and shifted by the mean. *)
Definition StandardScaler_inverse_transform (sc : StandardScaler) (y : Series)
  : result Series :=
  (yf <- mapM to_float y ;;
   if Nat.eqb (length yf) 0
   then Err (ValueError "Found array with 0 sample(s) while a minimum of 1 is required")
   else
     match stats sc with
     | [ms] => Ok (map (unstandardize ms) yf)
     | _ => Err (ValueError "operands could not be broadcast together")
     end)%result.

(** ** sklearn.preprocessing.LabelEncoder *)

Fixpoint insert_label (x : string) (l : list string) : list string :=
  match l with
  | [] => [x]
  | y :: l' =>
      match String_as_OT.compare x y with
      | Lt => x :: y :: l'
      | Eq => y :: l'
      | Gt => y :: insert_label x l'
      end
  end.

(** [numpy.unique]: the sorted distinct labels. *)
Definition np_unique (ys : list string) : list string :=
  fold_right insert_label [] ys.

Record LabelEncoder : Type := { classes_ : list string }.

Definition LabelEncoder_fit (ys : list string) : LabelEncoder :=
  {| classes_ := np_unique ys |}.

Fixpoint index_of (x : string) (l : list string) : option nat :=
  match l with
  | [] => None
  | y :: l' =>
      if String.eqb y x then Some 0
      else option_map S (index_of x l')
  end.

Definition encode (classes : list string) (y : string) : result cell :=
  match index_of y classes with
  | Some i => Ok (Int (Z.of_nat i))
  | None => Err (ValueError "y contains previously unseen labels")
  end.

Definition LabelEncoder_transform (le : LabelEncoder) (ys : list string)
  : result Series :=
  mapM (encode (classes_ le)) ys.

(** ** The schema *)

(** Modelled from the spec: the enumerations [DataTypes] and [InputTypes]
    of the base module, which is not part of the sources at hand, with the
    members the formatter names (semantic types continuous and categorical;
    roles identifier, timestamp, target, known input and static input). *)
Inductive DataTypes : Type := REAL_VALUED | CATEGORICAL.

(** Modelled from the spec: the roles of [InputTypes]. *)
Inductive InputTypes : Type := TARGET | KNOWN_INPUT | STATIC_INPUT | ID | TIME.

Definition DataTypes_eqb (a b : DataTypes) : bool :=
  match a, b with
  | REAL_VALUED, REAL_VALUED | CATEGORICAL, CATEGORICAL => true
  | _, _ => false
  end.

Definition InputTypes_eqb (a b : InputTypes) : bool :=
  match a, b with
  | TARGET, TARGET | KNOWN_INPUT, KNOWN_INPUT | STATIC_INPUT, STATIC_INPUT
  | ID, ID | TIME, TIME => true
  | _, _ => false
  end.

Definition ColumnSpec : Type := (string * DataTypes * InputTypes)%type.

Definition col_name (t : ColumnSpec) : string := fst (fst t).
Definition col_type (t : ColumnSpec) : DataTypes := snd (fst t).
Definition col_role (t : ColumnSpec) : InputTypes := snd t.

Definition _column_definition : list ColumnSpec :=
  [ ("PRICE_ASK_0"%string, REAL_VALUED, KNOWN_INPUT);
    ("PRICE_BID_0"%string, REAL_VALUED, KNOWN_INPUT);
    ("VOLUME_ASK_0"%string, REAL_VALUED, KNOWN_INPUT);
    ("VOLUME_BID_0"%string, REAL_VALUED, KNOWN_INPUT);
    ("SPREAD"%string, REAL_VALUED, KNOWN_INPUT);
    ("midprice"%string, REAL_VALUED, KNOWN_INPUT);
    ("id"%string, REAL_VALUED, ID);
    ("time"%string, REAL_VALUED, TIME);
    ("rolling_volatility"%string, REAL_VALUED, TARGET);
    ("STOCK"%string, CATEGORICAL, STATIC_INPUT) ].

(** Modelled from the spec: [get_column_definition] of the base class,
    the accessor of the schema. *)
Definition get_column_definition : list ColumnSpec := _column_definition.

(** Modelled from the spec: [utils2.get_single_col_by_input_type], the
    name of the one column with the given role; zero or several matches are
    an error. *)
Definition get_single_col_by_input_type (input_type : InputTypes)
  (column_definition : list ColumnSpec) : result string :=
  match filter (fun t => InputTypes_eqb (col_role t) input_type)
               column_definition with
  | [t] => Ok (col_name t)
  | _ => Err (ValueError "Invalid number of columns")
  end.

(** Modelled from the spec: [utils2.extract_cols_from_data_type], the
    names of the columns of the given semantic type whose role is not
    excluded, in schema order. *)
Definition extract_cols_from_data_type (data_type : DataTypes)
  (column_definition : list ColumnSpec)
  (excluded_input_types : list InputTypes) : list string :=
  map col_name
    (filter (fun t =>
               DataTypes_eqb (col_type t) data_type &&
               negb (existsb (InputTypes_eqb (col_role t))
                             excluded_input_types))
            column_definition).

(** ** The formatter object and the heap of frames *)

Record FixedParams : Type := {
  total_time_steps : Z;
  num_encoder_steps : Z;
  num_epochs : Z;
  early_stopping_patience : Z;
  multiprocessing_workers : Z
}.

Definition get_fixed_params (forecast_horizon : Z) : FixedParams :=
  {| total_time_steps := 100 + forecast_horizon;
     num_encoder_steps := 100;
     num_epochs := 100;
     early_stopping_patience := 5;
     multiprocessing_workers := 5 |}.

(** The attributes of a [VolatilityFormatter]; [None] is Python's [None]. *)
Record VolatilityFormatter : Type := {
  identifiers : option (list cell);
  _real_scalers : option StandardScaler;
  _cat_scalers : option (list (string * LabelEncoder));
  _target_scaler : option StandardScaler;
  _num_classes_per_cat_input : option (list nat);
  _time_steps : Z;
  _num_encoder_steps : Z
}.

(** [__init__] *)
Definition __init__ : VolatilityFormatter :=
  {| identifiers := None;
     _real_scalers := None;
     _cat_scalers := None;
     _target_scaler := None;
     _num_classes_per_cat_input := None;
     _time_steps := total_time_steps (get_fixed_params 20);
     _num_encoder_steps := num_encoder_steps (get_fixed_params 20) |}.

(** A reference to a frame is its position in the heap. *)
Definition loc := nat.

(** The state a method runs in: the formatter [self] and the frames that
    exist. *)
Record world : Type := {
  self : VolatilityFormatter;
  frames : list DataFrame
}.

(** A computation changes the world and returns a value or raises; the
    changes made before an exception stay. *)
Definition M (A : Type) : Type := world -> world * result A.

Definition mret {A} (a : A) : M A := fun w => (w, Ok a).

Definition raise {A} (e : exn) : M A := fun w => (w, Err e).

Definition mbind {A B} (m : M A) (f : A -> M B) : M B :=
  fun w =>
    match m w with
    | (w', Ok a) => f a w'
    | (w', Err e) => (w', Err e)
    end.

Definition lift {A} (r : result A) : M A := fun w => (w, r).

Declare Scope monad_scope.
Delimit Scope monad_scope with M.
Notation "x <- m ;; k" := (mbind m (fun x => k))
  (at level 61, m at next level, right associativity) : monad_scope.
Notation "m ;; k" := (mbind m (fun _ => k))
  (at level 61, right associativity) : monad_scope.

Fixpoint for_each {A} (l : list A) (body : A -> M unit) : M unit :=
  match l with
  | [] => mret tt
  | a :: l' => (body a ;; for_each l' body)%M
  end.

Definition get_self : M VolatilityFormatter := fun w => (w, Ok (self w)).

Definition set_self (f : VolatilityFormatter -> VolatilityFormatter) : M unit :=
  fun w => ({| self := f (self w); frames := frames w |}, Ok tt).

(** The frame a reference points to. *)
Definition load (l : loc) : M DataFrame :=
  fun w => (w, Ok (nth l (frames w) [])).

Fixpoint replace_nth {A} (n : nat) (x : A) (l : list A) : list A :=
  match l, n with
  | [], _ => []
  | _ :: t, O => x :: t
  | y :: t, S n' => y :: replace_nth n' x t
  end.

Definition store (l : loc) (df : DataFrame) : M unit :=
  fun w => ({| self := self w; frames := replace_nth l df (frames w) |}, Ok tt).

(** A new frame, at a reference that was not in use. *)
Definition alloc (df : DataFrame) : M loc :=
  fun w => ({| self := self w; frames := frames w ++ [df] |},
            Ok (length (frames w))).

(** [df.copy()] *)
Definition copy (df : loc) : M loc :=
  (d <- load df ;; alloc d)%M.

(** [df[col]], [df[cols].values] and [df.columns], read through a
    reference. *)
Definition getitem (df : loc) (col : string) : M Series :=
  (d <- load df ;; lift (df_getitem d col))%M.

Definition getitems (df : loc) (cols : list string) : M (list Series) :=
  (d <- load df ;; lift (df_getitems d cols))%M.

Definition get_columns (df : loc) : M (list string) :=
  (d <- load df ;; mret (columns d))%M.

(** [df[col] = values] and [df[cols] = array], written through a
    reference. *)
Definition setitem (df : loc) (col : string) (values : Series) : M unit :=
  (d <- load df ;; store df (df_setitem d col values))%M.

Definition setitems (df : loc) (cols : list string) (values : list Series)
  : M unit :=
  (d <- load df ;; store df (df_setitems d cols values))%M.

(** [df.loc[mask]]: a new frame. *)
Definition loc_mask (df : loc) (mask : list bool) : M loc :=
  (d <- load df ;; alloc (df_loc d mask))%M.

Fixpoint foldM {A S} (body : S -> A -> M S) (l : list A) (s : S) : M S :=
  match l with
  | [] => mret s
  | a :: l' => (s' <- body s a ;; foldM body l' s')%M
  end.

(** A Python dict keyed by column names, in insertion order. *)
Fixpoint dict_set {V} (d : list (string * V)) (k : string) (v : V)
  : list (string * V) :=
  match d with
  | [] => [(k, v)]
  | (k', v') :: d' =>
      if String.eqb k' k then (k', v) :: d' else (k', v') :: dict_set d' k v
  end.

Fixpoint dict_get {V} (d : list (string * V)) (k : string) : result V :=
  match d with
  | [] => Err (KeyError k)
  | (k', v) :: d' => if String.eqb k' k then Ok v else dict_get d' k
  end.

(** Attribute assignments on [self]. *)
Definition with_identifiers (v : option (list cell)) (s : VolatilityFormatter) :=
  {| identifiers := v;
     _real_scalers := _real_scalers s;
     _cat_scalers := _cat_scalers s;
     _target_scaler := _target_scaler s;
     _num_classes_per_cat_input := _num_classes_per_cat_input s;
     _time_steps := _time_steps s;
     _num_encoder_steps := _num_encoder_steps s |}.

Definition with_real_scalers (v : option StandardScaler) (s : VolatilityFormatter) :=
  {| identifiers := identifiers s;
     _real_scalers := v;
     _cat_scalers := _cat_scalers s;
     _target_scaler := _target_scaler s;
     _num_classes_per_cat_input := _num_classes_per_cat_input s;
     _time_steps := _time_steps s;
     _num_encoder_steps := _num_encoder_steps s |}.

Definition with_target_scaler (v : option StandardScaler) (s : VolatilityFormatter) :=
  {| identifiers := identifiers s;
     _real_scalers := _real_scalers s;
     _cat_scalers := _cat_scalers s;
     _target_scaler := v;
     _num_classes_per_cat_input := _num_classes_per_cat_input s;
     _time_steps := _time_steps s;
     _num_encoder_steps := _num_encoder_steps s |}.

Definition with_cat_scalers (v : option (list (string * LabelEncoder)))
  (s : VolatilityFormatter) :=
  {| identifiers := identifiers s;
     _real_scalers := _real_scalers s;
     _cat_scalers := v;
     _target_scaler := _target_scaler s;
     _num_classes_per_cat_input := _num_classes_per_cat_input s;
     _time_steps := _time_steps s;
     _num_encoder_steps := _num_encoder_steps s |}.

Definition with_num_classes (v : option (list nat)) (s : VolatilityFormatter) :=
  {| identifiers := identifiers s;
     _real_scalers := _real_scalers s;
     _cat_scalers := _cat_scalers s;
     _target_scaler := _target_scaler s;
     _num_classes_per_cat_input := v;
     _time_steps := _time_steps s;
     _num_encoder_steps := _num_encoder_steps s |}.

(** ** The methods of the formatter *)

Definition id_time : list InputTypes := [ID; TIME].

(** [set_scalers(self, df)]: calibrates the scalers on the frame [df]. *)
Definition set_scalers (df : loc) : M unit :=
  (let column_definitions := get_column_definition in
   id_column <- lift (get_single_col_by_input_type ID column_definitions) ;;
   target_column <-
     lift (get_single_col_by_input_type TARGET column_definitions) ;;
   ids <- getitem df id_column ;;
   set_self (with_identifiers (Some (unique cell_eq_dec ids))) ;;
   let real_inputs :=
     extract_cols_from_data_type REAL_VALUED column_definitions id_time in
   data <- getitems df real_inputs ;;
   real_scaler <- lift (StandardScaler_fit data) ;;
   set_self (with_real_scalers (Some real_scaler)) ;;
   target_data <- getitems df [target_column] ;;
   target_scaler <- lift (StandardScaler_fit target_data) ;;
   set_self (with_target_scaler (Some target_scaler)) ;;
   let categorical_inputs :=
     extract_cols_from_data_type CATEGORICAL column_definitions id_time in
   acc <- foldM
     (fun (acc : list (string * LabelEncoder) * list nat) col =>
        column <- getitem df col ;;
        let srs := map py_str column in
        mret (dict_set (fst acc) col (LabelEncoder_fit srs),
              snd acc ++ [nunique string_dec srs]))
     categorical_inputs ([], []) ;;
   set_self (with_cat_scalers (Some (fst acc))) ;;
   set_self (with_num_classes (Some (snd acc))))%M.

Definition attribute_of_None {A} (attr : string) : M A :=
  raise (AttributeError ("'NoneType' object has no attribute " ++ attr)).

(** [transform_inputs(self, df)]: a transformed copy of the frame [df]. *)
Definition transform_inputs (df : loc) : M loc :=
  (output <- copy df ;;
   s <- get_self ;;
   match _real_scalers s, _cat_scalers s with
   | None, None => raise (ValueError "Scalers have not been set!")
   | _, _ => mret tt
   end ;;
   let column_definitions := get_column_definition in
   let real_inputs :=
     extract_cols_from_data_type REAL_VALUED column_definitions id_time in
   let categorical_inputs :=
     extract_cols_from_data_type CATEGORICAL column_definitions id_time in
   real_scaler <-
     match _real_scalers s with
     | Some sc => mret sc
     | None => attribute_of_None "'transform'"
     end ;;
   data <- getitems df real_inputs ;;
   scaled <- lift (StandardScaler_transform real_scaler data) ;;
   setitems output real_inputs scaled ;;
   for_each categorical_inputs
     (fun col =>
        column <- getitem df col ;;
        let string_df := map py_str column in
        cat_scalers <-
          match _cat_scalers s with
          | Some d => mret d
          | None => raise (TypeError "'NoneType' object is not subscriptable")
          end ;;
        encoder <- lift (dict_get cat_scalers col) ;;
        codes <- lift (LabelEncoder_transform encoder string_df) ;;
        setitem output col codes) ;;
   mret output)%M.

Definition reserved (col : string) : bool :=
  String.eqb col "forecast_time" || String.eqb col "identifier".

(** [format_predictions(self, predictions)]: a copy of the frame with the
    normalisation of the target reverted. *)
Definition format_predictions (predictions : loc) : M loc :=
  (output <- copy predictions ;;
   column_names <- get_columns predictions ;;
   for_each column_names
     (fun col =>
        if negb (reserved col) then
          s <- get_self ;;
          target_scaler <-
            match _target_scaler s with
            | Some sc => mret sc
            | None => attribute_of_None "'inverse_transform'"
            end ;;
          column <- getitem predictions col ;;
          values <- lift (StandardScaler_inverse_transform target_scaler column) ;;
          setitem output col values
        else mret tt) ;;
   mret output)%M.

(** [split_data(self, df, valid_boundary, test_boundary)].  The Python
    method returns a generator over the three partitions; each element is
    transformed when it is asked for, so the result is the list of the
    three suspended calls of [transform_inputs]. *)
Definition split_data (df : loc) (valid_boundary test_boundary : cell)
  : M (list (M loc)) :=
  (index <- getitem df "DAY" ;;
   train_mask <- lift (series_lt index valid_boundary) ;;
   train <- loc_mask df train_mask ;;
   ge_valid <- lift (series_ge index valid_boundary) ;;
   lt_test <- lift (series_lt index test_boundary) ;;
   valid <- loc_mask df (mask_and ge_valid lt_test) ;;
   test_mask <- lift (series_ge index test_boundary) ;;
   test <- loc_mask df test_mask ;;
   set_scalers train ;;
   mret (map transform_inputs [train; valid; test]))%M.

(** Running a generator to its end, as [train, valid, test = ...] does. *)
Fixpoint consume {A} (g : list (M A)) : M (list A) :=
  match g with
  | [] => mret []
  | m :: g' => (a <- m ;; rest <- consume g' ;; mret (a :: rest))%M
  end.

(** [get_time_steps(self)] and [get_num_encoder_steps(self)]: read from
    the fixed parameters, with the default forecast horizon. *)
Definition get_time_steps (s : VolatilityFormatter) : Z :=
  total_time_steps (get_fixed_params 20).

Definition get_num_encoder_steps (s : VolatilityFormatter) : Z :=
  num_encoder_steps (get_fixed_params 20).

(** A use of the formatter: a call of one of its methods, the next
    element of a generator (a call of [transform_inputs]), or the creation
    of a frame by the caller. *)
Inductive method_call : Type :=
| Call_set_scalers (df : loc)
| Call_transform_inputs (df : loc)
| Call_format_predictions (predictions : loc)
| Call_split_data (df : loc) (valid_boundary test_boundary : cell)
| New_frame (d : DataFrame).

(** The world after a call, whether it returned or raised. *)
Definition after_call (w : world) (c : method_call) : world :=
  match c with
  | Call_set_scalers df => fst (set_scalers df w)
  | Call_transform_inputs df => fst (transform_inputs df w)
  | Call_format_predictions p => fst (format_predictions p w)
  | Call_split_data df vb tb => fst (split_data df vb tb w)
  | New_frame d => fst (alloc d w)
  end.

Definition after_calls (w : world) (calls : list method_call) : world :=
  fold_left after_call calls w.

(** ** Vocabulary of the statements *)

(** The feature columns that [set_scalers] and [transform_inputs] select
    from the schema. *)
Definition real_inputs : list string :=
  extract_cols_from_data_type REAL_VALUED get_column_definition id_time.

Definition categorical_inputs : list string :=
  extract_cols_from_data_type CATEGORICAL get_column_definition id_time.

(** The frame behind a reference. *)
Definition frame_of (w : world) (l : loc) : DataFrame := nth l (frames w) [].

(** The column names of a frame with the number of rows of each. *)
Definition shape (d : DataFrame) : list (string * nat) :=
  map (fun cs => (fst cs, length (snd cs))) d.

(** The number of rows a shape gives for a column name. *)
Fixpoint rows_of (sh : list (string * nat)) (c : string) : option nat :=
  match sh with
  | [] => None
  | (k, n) :: sh' => if String.eqb k c then Some n else rows_of sh' c
  end.

(** The attributes of a formatter after a calibration that read the
    identifiers [ids] and the categorical column [stock] and fitted the
    scalers [rs] and [ts]. *)
Definition calibrated_with (s0 : VolatilityFormatter) (ids : Series)
  (rs ts : StandardScaler) (stock : Series) : VolatilityFormatter :=
  {| identifiers := Some (unique cell_eq_dec ids);
     _real_scalers := Some rs;
     _cat_scalers :=
       Some [("STOCK"%string, LabelEncoder_fit (map py_str stock))];
     _target_scaler := Some ts;
     _num_classes_per_cat_input :=
       Some [nunique string_dec (map py_str stock)];
     _time_steps := _time_steps s0;
     _num_encoder_steps := _num_encoder_steps s0 |}.


(** The position at which a value occurs first in a series. *)
Fixpoint find_index (x : cell) (s : Series) : nat :=
  match s with
  | [] => 0
  | y :: s' => if cell_eq_dec x y then 0 else S (find_index x s')
  end.

(** The values of a series at the positions that are the first occurrence
    of their value, in the order of the positions. *)
Definition first_occurrences (s : Series) : list cell :=
  map snd
    (filter (fun p => Nat.eqb (find_index (snd p) s) (fst p))
            (combine (seq 0 (length s)) s)).



(** The [ValueError] raised by the validation of an array: an entry that
    is not a number, or no row. *)
Definition array_error (e : exn) : Prop :=
  e = ValueError "could not convert string to float" \/
  e = ValueError
        "Found array with 0 sample(s) while a minimum of 1 is required".

(** The columns [set_scalers] reads. *)
Definition schema_key (c : string) : Prop :=
  c = "id"%string \/ In c real_inputs \/ c = "STOCK"%string.

(** The categorical attributes are in step: both unset, or the encoder
    of [STOCK], with distinct classes, and the number of its classes,
    the identifiers and the two scalers being set as well. *)
Definition complete_or_unset (s : VolatilityFormatter) : Prop :=
  (_cat_scalers s = None /\ _num_classes_per_cat_input s = None) \/
  (exists enc ids rs ts,
     _cat_scalers s = Some [("STOCK"%string, enc)] /\
     NoDup (classes_ enc) /\
     _num_classes_per_cat_input s = Some [length (classes_ enc)] /\
     identifiers s = Some ids /\
     _real_scalers s = Some rs /\
     _target_scaler s = Some ts).

(** ** Example tables

    The tables below hold no float in the categorical column and no string
    in a numeric column, so [str] of a float and [float] of a string are
    never called on them; the examples run with conversions that are not
    used. *)

Definition repr_unused : R -> string := fun _ => EmptyString.
Definition parse_unused : string -> option R := fun _ => None.

Definition sample_table : DataFrame :=
  [ ("DAY"%string, [Int 5; Int 6; Int 7; Int 8; Int 9]);
    ("PRICE_ASK_0"%string, [Num 10; Num 11; Num 12; Num 13; Num 14]);
    ("PRICE_BID_0"%string, [Num 9; Num 10; Num 11; Num 12; Num 13]);
    ("VOLUME_ASK_0"%string, [Int 100; Int 200; Int 100; Int 300; Int 200]);
    ("VOLUME_BID_0"%string, [Int 150; Int 150; Int 250; Int 100; Int 200]);
    ("SPREAD"%string, [Num 1; Num 1; Num 1; Num 1; Num 1]);
    ("midprice"%string, [Num 9.5; Num 10.5; Num 11.5; Num 12.5; Num 13.5]);
    ("id"%string, [Int 3; Int 1; Int 3; Int 2; Int 1]);
    ("time"%string, [Int 0; Int 1; Int 2; Int 3; Int 4]);
    ("rolling_volatility"%string, [Num 3; Num 1; Num 5; Num 2; Num 4]);
    ("STOCK"%string, [Str "B"; Int 7; Str "B"; Int 7; Str "B"]) ].

Definition sample_world : world :=
  {| self := __init__; frames := [sample_table] |}.



(** [sample_table] without its last column, [STOCK]. *)
Definition no_stock_table : DataFrame := removelast sample_table.


(** ** Lists, results and frames *)

Lemma rbind_Ok : forall {A B} (r : result A) (f : A -> result B) (b : B),
  rbind r f = Ok b -> exists a, r = Ok a /\ f a = Ok b.
Proof.
  intros A B [a | e] f b H; simpl in H; [eauto | discriminate].
Qed.

Lemma mapM_Forall2 : forall {A B} (f : A -> result B) l l',
  mapM f l = Ok l' <-> Forall2 (fun a b => f a = Ok b) l l'.
Proof.
  intros A B f l; induction l as [| a l IH]; intros l'; simpl.
  - split; intros H.
    + injection H as <-. constructor.
    + inversion H. reflexivity.
  - split; intros H.
    + apply rbind_Ok in H as (b & Hb & H).
      apply rbind_Ok in H as (bs & Hbs & H).
      injection H as <-. constructor; [assumption | now apply IH].
    + inversion H as [| ? b ? bs Hb Hbs]; subst.
      rewrite Hb; simpl. apply IH in Hbs. rewrite Hbs. reflexivity.
Qed.

Lemma mapM_length : forall {A B} (f : A -> result B) l l',
  mapM f l = Ok l' -> length l' = length l.
Proof.
  intros A B f l l' H. apply mapM_Forall2 in H.
  symmetry. eapply Forall2_length; eassumption.
Qed.


Lemma df_getitem_setitem_eq : forall d c v,
  df_getitem (df_setitem d c v) c = Ok v.
Proof.
  induction d as [| [c' s'] d IH]; simpl; intros c v.
  - now rewrite String.eqb_refl.
  - destruct (String.eqb_spec c' c) as [-> | Hne]; simpl.
    + now rewrite String.eqb_refl.
    + apply String.eqb_neq in Hne. rewrite Hne. apply IH.
Qed.

Lemma df_getitem_setitem_neq : forall d c c' v,
  c <> c' -> df_getitem (df_setitem d c v) c' = df_getitem d c'.
Proof.
  induction d as [| [k s] d IH]; simpl; intros c c' v Hne.
  - apply String.eqb_neq in Hne. now rewrite Hne.
  - destruct (String.eqb_spec k c) as [-> | Hk]; simpl.
    + apply String.eqb_neq in Hne. now rewrite Hne.
    + destruct (String.eqb k c'); [reflexivity | now apply IH].
Qed.

Lemma df_getitem_setitems_other : forall cols vals d c,
  ~ In c cols ->
  df_getitem (df_setitems d cols vals) c = df_getitem d c.
Proof.
  induction cols as [| k cols IH]; intros vals d c Hc; simpl.
  - reflexivity.
  - destruct vals as [| v vals]; [reflexivity |].
    rewrite IH by (intros Hin; apply Hc; now right).
    apply df_getitem_setitem_neq. intros ->. apply Hc. now left.
Qed.

Lemma df_getitem_setitems_nth : forall cols vals d i c v,
  NoDup cols ->
  nth_error cols i = Some c -> nth_error vals i = Some v ->
  df_getitem (df_setitems d cols vals) c = Ok v.
Proof.
  induction cols as [| k cols IH]; intros vals d i c v Hnd Hc Hv.
  - destruct i; discriminate.
  - destruct vals as [| v0 vals]; [destruct i; discriminate |].
    inversion Hnd as [| ? ? Hk Hnd']; subst. simpl.
    destruct i as [| i]; simpl in Hc, Hv.
    + injection Hc as <-. injection Hv as <-.
      rewrite df_getitem_setitems_other by assumption.
      apply df_getitem_setitem_eq.
    + eapply IH; eassumption.
Qed.

Lemma rows_of_getitem : forall d c s,
  df_getitem d c = Ok s -> rows_of (shape d) c = Some (length s).
Proof.
  induction d as [| [k s'] d IH]; simpl; intros c s H; [discriminate |].
  destruct (String.eqb k c); [now injection H as <- | now apply IH].
Qed.

Lemma shape_setitem : forall d c v,
  rows_of (shape d) c = Some (length v) ->
  shape (df_setitem d c v) = shape d.
Proof.
  induction d as [| [k s] d IH]; simpl; intros c v H; [discriminate |].
  destruct (String.eqb k c) eqn:E; simpl.
  - injection H as ->. reflexivity.
  - f_equal. now apply IH.
Qed.

Lemma shape_setitems : forall cols vals d,
  Forall2 (fun c v => rows_of (shape d) c = Some (length v)) cols vals ->
  shape (df_setitems d cols vals) = shape d.
Proof.
  intros cols vals d H. remember (shape d) as sh eqn:Hsh.
  revert d Hsh.
  induction H as [| c v cols vals Hcv H IH]; intros d Hsh; simpl.
  - now symmetry.
  - apply IH. subst sh. symmetry. now apply shape_setitem.
Qed.

Lemma shape_columns : forall d d', shape d = shape d' -> columns d = columns d'.
Proof.
  intros d d' H. unfold columns.
  assert (E : forall x, map fst (shape x) = map fst x).
  { intros x. unfold shape. rewrite map_map. reflexivity. }
  rewrite <- (E d), <- (E d'), H. reflexivity.
Qed.

Lemma df_getitem_df_loc : forall d m c,
  df_getitem (df_loc d m) c =
  match df_getitem d c with
  | Ok s => Ok (select m s)
  | Err e => Err e
  end.
Proof.
  induction d as [| [k s] d IH]; intros m c; simpl; [reflexivity |].
  destruct (String.eqb k c); [reflexivity | apply IH].
Qed.

(** ** The heap *)

Lemma nth_app_copy : forall (h : list DataFrame) l,
  nth l (h ++ [nth l h []]) [] = nth l h [].
Proof.
  intros h l. destruct (Nat.lt_ge_cases l (length h)) as [Hlt | Hge].
  - now apply app_nth1.
  - rewrite app_nth2 by assumption.
    rewrite (nth_overflow h) by assumption.
    destruct (l - length h) as [| [| n]]; reflexivity.
Qed.

Lemma nth_app_new : forall (h : list DataFrame) d,
  nth (length h) (h ++ [d]) [] = d.
Proof.
  intros h d. rewrite app_nth2 by lia. now rewrite Nat.sub_diag.
Qed.

Lemma nth_app_old : forall (h : list DataFrame) d l,
  l < length h -> nth l (h ++ [d]) [] = nth l h [].
Proof. intros h d l H. now apply app_nth1. Qed.

Lemma replace_nth_new : forall {A} (h : list A) (d d' : A),
  replace_nth (length h) d' (h ++ [d]) = h ++ [d'].
Proof.
  intros A h d d'; induction h as [| x h IH]; simpl; [reflexivity |].
  now rewrite IH.
Qed.

(** ** Running the methods *)

Lemma real_inputs_eq : real_inputs =
  ["PRICE_ASK_0"; "PRICE_BID_0"; "VOLUME_ASK_0"; "VOLUME_BID_0"; "SPREAD";
   "midprice"; "rolling_volatility"]%string.
Proof. reflexivity. Qed.

Lemma categorical_inputs_eq : categorical_inputs = ["STOCK"%string].
Proof. reflexivity. Qed.

Lemma id_column_eq :
  get_single_col_by_input_type ID get_column_definition = Ok "id"%string.
Proof. reflexivity. Qed.

Lemma target_column_eq :
  get_single_col_by_input_type TARGET get_column_definition
  = Ok "rolling_volatility"%string.
Proof. reflexivity. Qed.

(** Unfolds the monad and the heap operations, leaving the calls into
    pandas and sklearn in place. *)
Ltac msimpl :=
  cbv beta iota zeta delta
    [mbind lift getitem getitems get_columns setitem setitems load store
     alloc copy loc_mask set_self get_self mret raise attribute_of_None
     for_each foldM fst snd] in *;
  cbn [self frames] in *;
  rewrite ?nth_app_new, ?replace_nth_new, ?nth_app_copy in *.

(** Case analysis on the next call whose outcome decides the control
    flow. *)
Ltac mdestruct :=
  match goal with
  | |- context [match ?r with Ok _ => _ | Err _ => _ end] =>
      let E := fresh "E" in destruct r eqn:E
  | |- context [match ?r with Some _ => _ | None => _ end] =>
      let E := fresh "E" in destruct r eqn:E
  end; msimpl.

Lemma set_scalers_Ok : forall (df : loc) (w w' : world),
  set_scalers df w = (w', Ok tt) ->
  exists ids data rs tdata ts stock,
    df_getitem (frame_of w df) "id" = Ok ids /\
    df_getitems (frame_of w df) real_inputs = Ok data /\
    StandardScaler_fit data = Ok rs /\
    df_getitems (frame_of w df) ["rolling_volatility"%string] = Ok tdata /\
    StandardScaler_fit tdata = Ok ts /\
    df_getitem (frame_of w df) "STOCK" = Ok stock /\
    w' = {| self := calibrated_with (self w) ids rs ts stock;
            frames := frames w |}.
Proof.
  intros df w w'. unfold frame_of, set_scalers.
  fold real_inputs categorical_inputs.
  rewrite categorical_inputs_eq, id_column_eq, target_column_eq.
  msimpl. repeat mdestruct; intros H; try discriminate H.
  injection H as <-.
  do 6 eexists. repeat split; eassumption || reflexivity.
Qed.

(** Whatever its outcome, [transform_inputs] leaves the formatter and
    the existing frames as they were and creates one frame. *)
Lemma transform_inputs_run : forall df w w' r,
  transform_inputs df w = (w', r) ->
  self w' = self w /\ exists o, frames w' = frames w ++ [o].
Proof.
  intros df w w' r. unfold transform_inputs.
  fold real_inputs categorical_inputs. rewrite categorical_inputs_eq.
  msimpl. repeat mdestruct;
    intros H; injection H as <- <-; cbn [self frames]; eauto.
Qed.

Lemma transform_inputs_Ok : forall df w w' out,
  df < length (frames w) ->
  transform_inputs df w = (w', Ok out) ->
  exists rs cats data scaled stock enc codes,
    _real_scalers (self w) = Some rs /\
    _cat_scalers (self w) = Some cats /\
    df_getitems (frame_of w df) real_inputs = Ok data /\
    StandardScaler_transform rs data = Ok scaled /\
    df_getitem (frame_of w df) "STOCK" = Ok stock /\
    dict_get cats "STOCK" = Ok enc /\
    LabelEncoder_transform enc (map py_str stock) = Ok codes /\
    out = length (frames w) /\
    w' = {| self := self w;
            frames := frames w ++
              [df_setitem (df_setitems (frame_of w df) real_inputs scaled)
                          "STOCK" codes] |}.
Proof.
  intros df w w' out Hdf. unfold transform_inputs, frame_of.
  fold real_inputs categorical_inputs. rewrite categorical_inputs_eq.
  msimpl. repeat (mdestruct; rewrite ?(nth_app_old _ _ _ Hdf) in * );
    intros H; try discriminate H.
  injection H as <- <-.
  do 7 eexists. repeat split; eassumption || reflexivity.
Qed.

Lemma nth_app_old_many : forall (h : list DataFrame) a l,
  l < length h -> nth l (h ++ a) [] = nth l h [].
Proof. intros h a l H. now apply app_nth1. Qed.

Lemma split_data_Ok : forall df vb tb w w' g,
  df < length (frames w) ->
  split_data df vb tb w = (w', Ok g) ->
  exists index m_train m_ge m_lt m_test,
    df_getitem (frame_of w df) "DAY" = Ok index /\
    series_lt index vb = Ok m_train /\
    series_ge index vb = Ok m_ge /\
    series_lt index tb = Ok m_lt /\
    series_ge index tb = Ok m_test /\
    set_scalers (length (frames w))
      {| self := self w;
         frames := frames w ++
           [df_loc (frame_of w df) m_train;
            df_loc (frame_of w df) (mask_and m_ge m_lt);
            df_loc (frame_of w df) m_test] |} = (w', Ok tt) /\
    g = map transform_inputs
          [length (frames w); S (length (frames w));
           S (S (length (frames w)))].
Proof.
  intros df vb tb w w' g Hdf. unfold split_data, frame_of.
  msimpl.
  repeat (mdestruct;
          rewrite <- ?app_assoc, ?length_app in *; cbn [app length] in *;
          rewrite ?(nth_app_old_many _ _ _ Hdf) in * );
    try (intros H; discriminate H).
  match goal with
  | |- context [set_scalers ?l ?w0] =>
      destruct (set_scalers l w0) as [w1 [[] | e]] eqn:Hs
  end; intros H; [| discriminate H].
  injection H as <- <-.
  do 5 eexists. repeat split; try (eassumption || reflexivity).
  cbn [map]. repeat f_equal; lia.
Qed.



Lemma set_scalers_intro : forall df w ids data rs tdata ts stock,
  df_getitem (frame_of w df) "id" = Ok ids ->
  df_getitems (frame_of w df) real_inputs = Ok data ->
  StandardScaler_fit data = Ok rs ->
  df_getitems (frame_of w df) ["rolling_volatility"%string] = Ok tdata ->
  StandardScaler_fit tdata = Ok ts ->
  df_getitem (frame_of w df) "STOCK" = Ok stock ->
  set_scalers df w =
    ({| self := calibrated_with (self w) ids rs ts stock;
        frames := frames w |}, Ok tt).
Proof.
  unfold frame_of. intros df w ids data rs tdata ts stock H1 H2 H3 H4 H5 H6.
  unfold set_scalers. fold real_inputs categorical_inputs.
  rewrite categorical_inputs_eq, id_column_eq, target_column_eq.
  msimpl. rewrite H1. msimpl. rewrite H2. msimpl. rewrite H3. msimpl.
  rewrite H4. msimpl. rewrite H5. msimpl. rewrite H6. msimpl.
  reflexivity.
Qed.

(** ** The scalers *)

Lemma StandardScaler_fit_Ok : forall X sc,
  StandardScaler_fit X = Ok sc ->
  exists Xf,
    mapM (mapM to_float) X = Ok Xf /\ n_samples Xf <> 0 /\
    stats sc = map fit_column Xf.
Proof.
  intros X sc H. unfold StandardScaler_fit, check_array in H.
  apply rbind_Ok in H as (Xf0 & H & Hsc).
  apply rbind_Ok in H as (Xf & HX & H).
  destruct (Nat.eqb_spec (n_samples Xf) 0) as [| Hn]; [discriminate |].
  injection H as <-. injection Hsc as <-.
  exists Xf. auto.
Qed.

Lemma StandardScaler_transform_Ok : forall sc X scaled,
  StandardScaler_transform sc X = Ok scaled ->
  exists Xf,
    mapM (mapM to_float) X = Ok Xf /\ n_samples Xf <> 0 /\
    length Xf = length (stats sc) /\
    scaled = scale_columns (stats sc) Xf.
Proof.
  intros sc X scaled H. unfold StandardScaler_transform, check_array in H.
  apply rbind_Ok in H as (Xf0 & H & Hsc).
  apply rbind_Ok in H as (Xf & HX & H).
  destruct (Nat.eqb_spec (n_samples Xf) 0) as [| Hn]; [discriminate |].
  injection H as <-.
  destruct (Nat.eqb_spec (length Xf) (length (stats sc))) as [Hl |];
    [| discriminate].
  injection Hsc as <-. exists Xf. auto.
Qed.

Lemma scale_columns_nth : forall st Xf i ms xs,
  nth_error st i = Some ms -> nth_error Xf i = Some xs ->
  nth_error (scale_columns st Xf) i = Some (map (standardize ms) xs).
Proof.
  induction st as [| ms0 st IH]; intros Xf i ms xs Hst HXf.
  - destruct i; discriminate.
  - destruct Xf as [| c Xf]; [destruct i; discriminate |].
    destruct i as [| i]; simpl in *.
    + injection Hst as <-. injection HXf as <-. reflexivity.
    + now apply IH.
Qed.






Lemma df_getitems_one : forall d c tdata,
  df_getitems d [c] = Ok tdata ->
  exists col, df_getitem d c = Ok col /\ tdata = [col].
Proof.
  intros d c tdata H. unfold df_getitems in H. simpl in H.
  apply rbind_Ok in H as (col & Hcol & H). injection H as <-. eauto.
Qed.

(** ** Label encoding *)

Lemma In_insert_label : forall x l z,
  In z (insert_label x l) <-> z = x \/ In z l.
Proof.
  intros x l z; induction l as [| y l IH]; simpl.
  - intuition auto.
  - destruct (String_as_OT.compare_spec x y) as [Heq | Hlt | Hgt]; simpl.
    + red in Heq. subst. intuition auto.
    + intuition auto.
    + rewrite IH. intuition auto.
Qed.

Lemma In_np_unique : forall ys z, In z (np_unique ys) <-> In z ys.
Proof.
  intros ys z; induction ys as [| y ys IH]; simpl; [reflexivity |].
  rewrite In_insert_label, IH. intuition.
Qed.

Lemma insert_label_sorted : forall x l,
  StronglySorted String_as_OT.lt l ->
  StronglySorted String_as_OT.lt (insert_label x l).
Proof.
  intros x l H; induction H as [| y l Hs IH Hy]; simpl.
  - repeat constructor.
  - destruct (String_as_OT.compare_spec x y) as [Heq | Hlt | Hgt].
    + now constructor.
    + constructor; [now constructor |].
      constructor; [assumption |].
      eapply Forall_impl; [| exact Hy].
      intros z Hz. etransitivity; eassumption.
    + constructor; [assumption |].
      apply Forall_forall. intros z Hz.
      apply In_insert_label in Hz as [-> | Hz]; [assumption |].
      rewrite Forall_forall in Hy. now apply Hy.
Qed.

Lemma np_unique_sorted : forall ys,
  StronglySorted String_as_OT.lt (np_unique ys).
Proof.
  induction ys as [| y ys IH]; simpl; [constructor |].
  now apply insert_label_sorted.
Qed.

Lemma lt_irrefl : forall x, ~ String_as_OT.lt x x.
Proof. intros x. apply irreflexivity. Qed.

Lemma sorted_NoDup : forall l,
  StronglySorted String_as_OT.lt l -> NoDup l.
Proof.
  intros l H; induction H as [| y l Hs IH Hy]; constructor; [| assumption].
  intros Hin. rewrite Forall_forall in Hy.
  exact (lt_irrefl _ (Hy _ Hin)).
Qed.

(** A strictly sorted list is determined by its set of elements. *)
Lemma sorted_ext : forall l1 l2,
  StronglySorted String_as_OT.lt l1 ->
  StronglySorted String_as_OT.lt l2 ->
  (forall x, In x l1 <-> In x l2) ->
  l1 = l2.
Proof.
  intros l1 l2 H1; revert l2.
  induction H1 as [| a t1 Hs1 IH Ha]; intros l2 H2 Hin.
  - destruct l2 as [| b t2]; [reflexivity |].
    exfalso. apply (proj2 (Hin b)). now left.
  - destruct H2 as [| b t2 Hs2 Hb].
    + exfalso. apply (proj1 (Hin a)). now left.
    + rewrite Forall_forall in Ha, Hb.
      assert (Hab : a = b).
      { destruct (proj1 (Hin a) (or_introl eq_refl)) as [E | Ia]; [easy |].
        destruct (proj2 (Hin b) (or_introl eq_refl)) as [E | Ib]; [easy |].
        exfalso. apply (lt_irrefl a).
        etransitivity; [apply Ha, Ib | apply Hb, Ia]. }
      subst b. f_equal. apply IH; [assumption |].
      intros x; split; intros Hx.
      * destruct (proj1 (Hin x) (or_intror Hx)) as [E | Ix]; [| assumption].
        subst x. exfalso. exact (lt_irrefl _ (Ha _ Hx)).
      * destruct (proj2 (Hin x) (or_intror Hx)) as [E | Ix]; [| assumption].
        subst x. exfalso. exact (lt_irrefl _ (Hb _ Hx)).
Qed.

Lemma np_unique_ext : forall ys1 ys2,
  (forall x, In x ys1 <-> In x ys2) -> np_unique ys1 = np_unique ys2.
Proof.
  intros ys1 ys2 H. apply sorted_ext; try apply np_unique_sorted.
  intros x. rewrite !In_np_unique. apply H.
Qed.

Lemma index_of_Some : forall x l i,
  index_of x l = Some i -> nth_error l i = Some x.
Proof.
  intros x l; induction l as [| y l IH]; simpl; intros i H; [discriminate |].
  destruct (String.eqb_spec y x) as [-> | Hne].
  - injection H as <-. reflexivity.
  - destruct (index_of x l) as [j |]; [| discriminate].
    injection H as <-. simpl. now apply IH.
Qed.

Lemma index_of_None : forall x l, index_of x l = None <-> ~ In x l.
Proof.
  intros x l; induction l as [| y l IH]; simpl; [intuition |].
  destruct (String.eqb_spec y x) as [-> | Hne].
  - split; [discriminate | intros H; exfalso; apply H; now left].
  - destruct (index_of x l) as [j |]; simpl.
    + split; [discriminate |]. intros H. exfalso.
      destruct IH as [_ IH]. assert (Hn : ~ In x l) by tauto.
      specialize (IH Hn). discriminate.
    + split; [| reflexivity]. intros _ [E | Hin]; [easy |].
      now apply (proj1 IH).
Qed.

(** ** Distinct values *)

Section UniqueFacts.
Variable A : Type.
Variable eq_dec : forall a b : A, {a = b} + {a <> b}.

Lemma In_unique_from : forall s seen x,
  In x (unique_from eq_dec seen s) <-> In x s /\ ~ In x seen.
Proof.
  induction s as [| y s IH]; intros seen x; simpl.
  - tauto.
  - destruct (in_dec eq_dec y seen) as [Hy | Hy]; simpl; rewrite IH.
    + split; [tauto |]. intros [[-> | Hx] Hn]; tauto.
    + simpl. split.
      * intros [-> | [Hx Hn]]; tauto.
      * intros [[-> | Hx] Hn]; [tauto |].
        destruct (eq_dec y x); [tauto |]. right. tauto.
Qed.

Lemma NoDup_unique_from : forall s seen, NoDup (unique_from eq_dec seen s).
Proof.
  induction s as [| y s IH]; intros seen; simpl; [constructor |].
  destruct (in_dec eq_dec y seen); [apply IH |].
  constructor; [| apply IH].
  rewrite In_unique_from. simpl. tauto.
Qed.

Lemma In_unique : forall s x, In x (unique eq_dec s) <-> In x s.
Proof.
  intros s x. unfold unique. rewrite In_unique_from. simpl. tauto.
Qed.

Lemma NoDup_unique : forall s, NoDup (unique eq_dec s).
Proof. intros s. apply NoDup_unique_from. Qed.
End UniqueFacts.

Lemma nunique_np_unique : forall ys,
  nunique string_dec ys = length (np_unique ys).
Proof.
  intros ys. unfold nunique. apply Permutation_length.
  apply NoDup_Permutation.
  - apply NoDup_unique.
  - apply sorted_NoDup, np_unique_sorted.
  - intros x. rewrite In_unique, In_np_unique. reflexivity.
Qed.

Lemma nunique_ext : forall ys1 ys2,
  (forall x, In x ys1 <-> In x ys2) ->
  nunique string_dec ys1 = nunique string_dec ys2.
Proof.
  intros ys1 ys2 H. rewrite !nunique_np_unique.
  now rewrite (np_unique_ext ys1 ys2).
Qed.

Lemma find_index_app_in : forall x pre t,
  In x pre ->
  find_index x (pre ++ t) = find_index x pre /\ find_index x pre < length pre.
Proof.
  intros x pre t; induction pre as [| y pre IH]; intros H; [destruct H |].
  simpl. destruct (cell_eq_dec x y) as [-> | Hne]; [split; [reflexivity | lia] |].
  destruct H as [E | H]; [congruence |].
  destruct (IH H) as [E L]. split; [now rewrite E | lia].
Qed.

Lemma find_index_app_notin : forall x pre t,
  ~ In x pre -> find_index x (pre ++ t) = length pre + find_index x t.
Proof.
  intros x pre t; induction pre as [| y pre IH]; intros H; [reflexivity |].
  simpl. destruct (cell_eq_dec x y) as [-> | Hne].
  - exfalso. apply H. now left.
  - rewrite IH; [reflexivity |]. intros Hin. apply H. now right.
Qed.

Lemma unique_first_occurrences_from : forall s seen pre,
  (forall x, In x seen <-> In x pre) ->
  unique_from cell_eq_dec seen s =
  map snd
    (filter (fun p => Nat.eqb (find_index (snd p) (pre ++ s)) (fst p))
            (combine (seq (length pre) (length s)) s)).
Proof.
  induction s as [| y s IH]; intros seen pre H; [reflexivity |].
  cbn [unique_from length seq combine filter fst snd].
  assert (Hrest : forall seen',
            (forall x, In x seen' <-> In x (pre ++ [y])) ->
            unique_from cell_eq_dec seen' s =
            map snd
              (filter (fun p => Nat.eqb (find_index (snd p) (pre ++ y :: s))
                                        (fst p))
                      (combine (seq (S (length pre)) (length s)) s))).
  { intros seen' H'. rewrite (IH seen' (pre ++ [y]) H').
    rewrite <- app_assoc, length_app. simpl.
    now rewrite Nat.add_1_r. }
  destruct (in_dec cell_eq_dec y seen) as [Hy | Hy].
  - destruct (find_index_app_in y pre (y :: s) (proj1 (H y) Hy)) as [E L].
    rewrite E.
    destruct (Nat.eqb_spec (find_index y pre) (length pre)); [lia |].
    apply Hrest. intros x. rewrite in_app_iff. simpl. rewrite <- H.
    split; [tauto |]. intros [Hx | [<- | []]]; assumption.
  - rewrite find_index_app_notin by (rewrite <- H; exact Hy).
    simpl. destruct (cell_eq_dec y y) as [_ | N]; [| congruence].
    rewrite Nat.add_0_r, Nat.eqb_refl. simpl. f_equal.
    apply Hrest. intros x. rewrite in_app_iff. simpl. rewrite <- H.
    tauto.
Qed.

Lemma unique_first_occurrences : forall s,
  unique cell_eq_dec s = first_occurrences s.
Proof.
  intros s. unfold unique, first_occurrences.
  apply (unique_first_occurrences_from s [] []). intros x. reflexivity.
Qed.

(** ** Ordering of cells and the three masks *)

Lemma Rcompare_IZR : forall x y, Rcompare (IZR x) (IZR y) = (x ?= y)%Z.
Proof.
  intros x y.
  destruct (Z.compare_spec x y) as [E | L | G];
    destruct (Rcompare_spec (IZR x) (IZR y)) as [RE | RL | RG];
    try reflexivity; exfalso.
  - subst. lra.
  - subst. lra.
  - apply eq_IZR in RE. lia.
  - apply lt_IZR in RG. lia.
  - apply eq_IZR in RE. lia.
  - apply lt_IZR in RL. lia.
Qed.

Lemma Rcompare_Lt_trans : forall a b c,
  Rcompare a b = Lt -> Rcompare b c <> Gt -> Rcompare a c = Lt.
Proof.
  intros a b c Hab Hbc.
  destruct (Rcompare_spec a b); try discriminate.
  destruct (Rcompare_spec b c); try congruence;
    destruct (Rcompare_spec a c); try reflexivity; exfalso; lra.
Qed.

Lemma string_compare_Lt_trans : forall a b c,
  String_as_OT.compare a b = Lt -> String_as_OT.compare b c <> Gt ->
  String_as_OT.compare a c = Lt.
Proof.
  intros a b c Hab Hbc.
  pose proof (String_as_OT.compare_spec b c) as Hs.
  destruct (String_as_OT.compare b c); inversion Hs as [E | L | G];
    try congruence.
  change (String_as_OT.lt a c). etransitivity; [exact Hab | exact L].
Qed.

(** An ordering that succeeds is the ordering of the numeric values, or
    of two strings. *)
Lemma cell_compare_Ok : forall a b c,
  cell_compare a b = Ok c ->
  (exists s t, a = Str s /\ b = Str t /\ c = String_as_OT.compare s t) \/
  ((forall s, a <> Str s) /\ (forall s, b <> Str s) /\
   c = Rcompare (num_val a) (num_val b)).
Proof.
  intros [x | n | s] [y | m | t] c H; simpl in H; try discriminate;
    injection H as <-;
    try (right; repeat split; try discriminate; try reflexivity;
         symmetry; apply Rcompare_IZR).
  left. eauto.
Qed.

Lemma cell_compare_Lt_trans : forall x vb tb c c',
  cell_compare x vb = Ok Lt ->
  cell_compare vb tb = Ok c -> c <> Gt ->
  cell_compare x tb = Ok c' ->
  c' = Lt.
Proof.
  intros x vb tb c c' H1 H2 Hc H3.
  apply cell_compare_Ok in H1, H2, H3.
  destruct H1 as [(s1 & t1 & A1 & B1 & E1) | (N1 & N1' & E1)];
    destruct H2 as [(s2 & t2 & A2 & B2 & E2) | (N2 & N2' & E2)];
    destruct H3 as [(s3 & t3 & A3 & B3 & E3) | (N3 & N3' & E3)];
    subst; try congruence;
    try (exfalso; eapply N1; reflexivity);
    try (exfalso; eapply N2; reflexivity);
    try (exfalso; eapply N3; reflexivity);
    try (exfalso; eapply N1'; reflexivity);
    try (exfalso; eapply N2'; reflexivity);
    try (exfalso; eapply N3'; reflexivity).
  - injection A2 as <-. injection A3 as <-. injection B3 as <-.
    symmetry in E1. now apply (string_compare_Lt_trans _ t1).
  - symmetry in E1. now apply (Rcompare_Lt_trans _ (num_val vb)).
Qed.



(** ** Statements about the formatter *)

Lemma Forall2_nth_error_l : forall {A B} (P : A -> B -> Prop) l l' i a,
  Forall2 P l l' -> nth_error l i = Some a ->
  exists b, nth_error l' i = Some b /\ P a b.
Proof.
  intros A B P l l' i a H; revert i.
  induction H as [| x y l l' Hxy H IH]; intros [| i] Hi; try discriminate.
  - injection Hi as <-. exists y. auto.
  - simpl. now apply IH.
Qed.

Lemma nth_error_same_length : forall {A B} (l : list A) (l' : list B) i a,
  length l = length l' -> nth_error l i = Some a ->
  exists b, nth_error l' i = Some b.
Proof.
  intros A B l l' i a Hlen Hi.
  destruct (nth_error l' i) as [b |] eqn:E; [eauto |].
  apply nth_error_None in E.
  assert (i < length l) by (apply nth_error_Some; congruence). lia.
Qed.

Lemma NoDup_real_inputs : NoDup real_inputs.
Proof.
  rewrite real_inputs_eq.
  repeat (constructor; [simpl; intuition discriminate |]). constructor.
Qed.

Lemma real_inputs_not_categorical : forall c,
  In c real_inputs -> ~ In c categorical_inputs.
Proof.
  intros c Hc. rewrite categorical_inputs_eq. rewrite real_inputs_eq in Hc.
  simpl in *. intuition (subst; discriminate).
Qed.

(** The columns of the frame that [transform_inputs] returns. *)
Lemma transformed_frame : forall df w w' out,
  df < length (frames w) ->
  transform_inputs df w = (w', Ok out) ->
  exists rs enc data scaled stock codes,
    _real_scalers (self w) = Some rs /\
    (exists cats, _cat_scalers (self w) = Some cats /\
                  dict_get cats "STOCK" = Ok enc) /\
    df_getitems (frame_of w df) real_inputs = Ok data /\
    StandardScaler_transform rs data = Ok scaled /\
    df_getitem (frame_of w df) "STOCK" = Ok stock /\
    LabelEncoder_transform enc (map py_str stock) = Ok codes /\
    frame_of w' out =
      df_setitem (df_setitems (frame_of w df) real_inputs scaled)
                 "STOCK" codes.
Proof.
  intros df w w' out Hdf H.
  apply transform_inputs_Ok in H
    as (rs & cats & data & scaled & stock & enc & codes &
        H1 & H2 & H3 & H4 & H5 & H6 & H7 & -> & ->); [| assumption].
  exists rs, enc, data, scaled, stock, codes.
  repeat split; eauto.
  unfold frame_of at 1. cbn [frames]. apply nth_app_new.
Qed.

(** C1, as amended: [transform_inputs] passes the identifier and the
    timestamp column (and every column that is neither a real-valued nor a
    categorical feature) through unchanged, and replaces every real-valued
    column whose role is not identifier or timestamp, the target column
    among them, by its standardized values [(x - mean) / scale]. *)
Theorem C1_transform_inputs_columns : forall df w w' out,
  df < length (frames w) ->
  transform_inputs df w = (w', Ok out) ->
  (forall role c,
     role = ID \/ role = TIME ->
     get_single_col_by_input_type role get_column_definition = Ok c ->
     df_getitem (frame_of w' out) c = df_getitem (frame_of w df) c) /\
  (forall c,
     ~ In c real_inputs -> ~ In c categorical_inputs ->
     df_getitem (frame_of w' out) c = df_getitem (frame_of w df) c) /\
  (exists target,
     get_single_col_by_input_type TARGET get_column_definition = Ok target /\
     In target real_inputs) /\
  (exists rs,
     _real_scalers (self w) = Some rs /\
     forall i c,
       nth_error real_inputs i = Some c ->
       exists col xs ms,
         df_getitem (frame_of w df) c = Ok col /\
         mapM to_float col = Ok xs /\
         nth_error (stats rs) i = Some ms /\
         df_getitem (frame_of w' out) c = Ok (map (standardize ms) xs)).
Proof.
  intros df w w' out Hdf H.
  apply transformed_frame in H
    as (rs & enc & data & scaled & stock & codes &
        Hrs & _ & Hdata & Hscaled & _ & _ & Hout); [| assumption].
  assert (Hother : forall c,
     ~ In c real_inputs -> ~ In c categorical_inputs ->
     df_getitem (frame_of w' out) c = df_getitem (frame_of w df) c).
  { intros c Hr Hc. rewrite Hout.
    rewrite df_getitem_setitem_neq.
    - now apply df_getitem_setitems_other.
    - intros <-. apply Hc. rewrite categorical_inputs_eq. now left. }
  split; [| split; [exact Hother | split]].
  - intros role c [-> | ->] Hc.
    + rewrite id_column_eq in Hc. injection Hc as <-.
      apply Hother; rewrite ?real_inputs_eq, ?categorical_inputs_eq;
        simpl; intuition discriminate.
    + assert (E : c = "time"%string) by (cbv in Hc; congruence). subst c.
      apply Hother; rewrite ?real_inputs_eq, ?categorical_inputs_eq;
        simpl; intuition discriminate.
  - exists "rolling_volatility"%string. split; [reflexivity |].
    rewrite real_inputs_eq. simpl. tauto.
  - exists rs. split; [assumption |]. intros i c Hi.
    apply StandardScaler_transform_Ok in Hscaled
      as (Xf & HXf & _ & Hlen & ->).
    unfold df_getitems in Hdata. apply mapM_Forall2 in Hdata.
    destruct (Forall2_nth_error_l _ _ _ _ _ Hdata Hi) as (col & Hcol & Hget).
    apply mapM_Forall2 in HXf.
    destruct (Forall2_nth_error_l _ _ _ _ _ HXf Hcol) as (xs & Hxs & Hfl).
    destruct (nth_error_same_length _ (stats rs) _ _ Hlen Hxs) as (ms & Hms).
    exists col, xs, ms. repeat split; try assumption.
    rewrite Hout. rewrite df_getitem_setitem_neq.
    + eapply df_getitem_setitems_nth.
      * exact NoDup_real_inputs.
      * exact Hi.
      * now apply scale_columns_nth.
    + intros <-. apply nth_error_In in Hi.
      apply real_inputs_not_categorical in Hi. apply Hi.
      rewrite categorical_inputs_eq. now left.
Qed.

Lemma scaled_rows : forall d cols data Xf st,
  df_getitems d cols = Ok data ->
  mapM (mapM to_float) data = Ok Xf ->
  length Xf = length st ->
  Forall2 (fun c v => rows_of (shape d) c = Some (length v))
          cols (scale_columns st Xf).
Proof.
  unfold df_getitems.
  intros d cols; induction cols as [| c cols IH];
    intros data Xf st Hdata HXf Hlen; simpl in Hdata.
  - injection Hdata as <-. simpl in HXf. injection HXf as <-.
    destruct st; constructor.
  - apply rbind_Ok in Hdata as (col & Hcol & Hdata).
    apply rbind_Ok in Hdata as (data' & Hdata' & Hdata).
    injection Hdata as <-. simpl in HXf.
    apply rbind_Ok in HXf as (xs & Hxs & HXf).
    apply rbind_Ok in HXf as (Xf' & HXf' & HXf).
    injection HXf as <-.
    destruct st as [| ms st]; [discriminate |]. simpl in Hlen. simpl.
    constructor.
    + rewrite length_map, (mapM_length _ _ _ Hxs).
      now apply rows_of_getitem.
    + eapply IH; eauto.
Qed.

(** C8: [transform_inputs] changes no frame that existed before the
    call, its input among them, and does not change the formatter; when it
    returns, the result is a frame that did not exist before, with the
    columns of the input, in the same order, and as many rows in each. *)
Theorem C8_transform_inputs_copy : forall df w w' r,
  df < length (frames w) ->
  transform_inputs df w = (w', r) ->
  frame_of w' df = frame_of w df /\
  (forall l, l < length (frames w) -> frame_of w' l = frame_of w l) /\
  self w' = self w /\
  (forall out, r = Ok out ->
     out = length (frames w) /\
     length (frames w') = S (length (frames w)) /\
     shape (frame_of w' out) = shape (frame_of w df) /\
     columns (frame_of w' out) = columns (frame_of w df)).
Proof.
  intros df w w' r Hdf H.
  destruct (transform_inputs_run _ _ _ _ H) as (Hself & o & Hframes).
  assert (Hold : forall l, l < length (frames w) ->
                           frame_of w' l = frame_of w l).
  { intros l Hl. unfold frame_of. rewrite Hframes. now apply nth_app_old. }
  split; [now apply Hold | split; [exact Hold | split; [exact Hself |]]].
  intros out ->.
  assert (Hshape : shape (frame_of w' out) = shape (frame_of w df)).
  { apply transformed_frame in H
      as (rs & enc & data & scaled & stock & codes &
          _ & _ & Hdata & Hscaled & Hstock & Hcodes & ->); [| assumption].
    apply StandardScaler_transform_Ok in Hscaled
      as (Xf & HXf & _ & Hlen & ->).
    assert (E : shape (df_setitems (frame_of w df) real_inputs
                         (scale_columns (stats rs) Xf))
                = shape (frame_of w df)).
    { apply shape_setitems. eapply scaled_rows; eassumption. }
    rewrite <- E. apply shape_setitem. rewrite E.
    unfold LabelEncoder_transform in Hcodes.
    rewrite (mapM_length _ _ _ Hcodes), length_map.
    now apply rows_of_getitem. }
  apply transform_inputs_Ok in H
    as (? & ? & ? & ? & ? & ? & ? & _ & _ & _ & _ & _ & _ & _ & Hout & _);
    [| assumption].
  repeat split.
  - exact Hout.
  - rewrite Hframes, length_app. simpl. lia.
  - exact Hshape.
  - now apply shape_columns.
Qed.


Lemma LabelEncoder_transform_Ok : forall enc ys codes,
  LabelEncoder_transform enc ys = Ok codes ->
  Forall2 (fun y code =>
             exists i, nth_error (classes_ enc) i = Some y /\
                       code = Int (Z.of_nat i)) ys codes.
Proof.
  intros enc ys codes H. unfold LabelEncoder_transform in H.
  apply mapM_Forall2 in H.
  eapply Forall2_impl; [| exact H].
  intros y code Hy. unfold encode in Hy.
  destruct (index_of y (classes_ enc)) as [i |] eqn:E; [| discriminate].
  injection Hy as <-. exists i. split; [| reflexivity].
  now apply index_of_Some.
Qed.




Lemma fit_one_column : forall col ts,
  StandardScaler_fit [col] = Ok ts ->
  exists xs,
    mapM to_float col = Ok xs /\ xs <> [] /\ stats ts = [fit_column xs].
Proof.
  intros col ts H.
  apply StandardScaler_fit_Ok in H as (Xf & HXf & Hn & Hst).
  simpl in HXf. apply rbind_Ok in HXf as (xs & Hxs & HXf).
  injection HXf as <-. exists xs. repeat split; try assumption.
  intros ->. now apply Hn.
Qed.









Lemma nth_app_first : forall (h : list DataFrame) a rest,
  nth (length h) (h ++ a :: rest) [] = a.
Proof.
  intros h a rest. rewrite app_nth2 by lia. now rewrite Nat.sub_diag.
Qed.

Lemma StandardScaler_eta : forall sc st, stats sc = st -> sc = {| stats := st |}.
Proof. intros [st0] st H. simpl in H. now subst. Qed.

(** The attributes that [set_scalers] leaves, from the columns of the
    frame it read. *)
Lemma set_scalers_attributes : forall df w w',
  set_scalers df w = (w', Ok tt) ->
  exists ids data Xf target xt stock,
    df_getitem (frame_of w df) "id" = Ok ids /\
    df_getitems (frame_of w df) real_inputs = Ok data /\
    mapM (mapM to_float) data = Ok Xf /\
    df_getitem (frame_of w df) "rolling_volatility" = Ok target /\
    mapM to_float target = Ok xt /\
    df_getitem (frame_of w df) "STOCK" = Ok stock /\
    identifiers (self w') = Some (unique cell_eq_dec ids) /\
    _real_scalers (self w') = Some {| stats := map fit_column Xf |} /\
    _target_scaler (self w') = Some {| stats := [fit_column xt] |} /\
    _cat_scalers (self w') =
      Some [("STOCK"%string,
             {| classes_ := np_unique (map py_str stock) |})] /\
    _num_classes_per_cat_input (self w') =
      Some [nunique string_dec (map py_str stock)] /\
    frames w' = frames w.
Proof.
  intros df w w' H.
  apply set_scalers_Ok in H
    as (ids & data & rs & tdata & ts & stock &
        Hids & Hdata & Hrs & Htd & Hts & Hstock & ->).
  apply df_getitems_one in Htd as (target & Htarget & ->).
  apply fit_one_column in Hts as (xt & Hxt & _ & Hst).
  apply StandardScaler_fit_Ok in Hrs as (Xf & HXf & _ & Hrst).
  exists ids, data, Xf, target, xt, stock.
  repeat (split; [eassumption |]). cbn [self calibrated_with frames
    identifiers _real_scalers _target_scaler _cat_scalers
    _num_classes_per_cat_input].
  rewrite (StandardScaler_eta _ _ Hrst), (StandardScaler_eta _ _ Hst).
  repeat split; reflexivity.
Qed.

(** C10: after [set_scalers] the attribute [identifiers] is the list of
    the values of the identifier column at the positions where a value
    occurs for the first time, in the order of these positions: every
    value of the column occurs in it, once. *)
Theorem C10_identifiers_first_appearance : forall df w w',
  set_scalers df w = (w', Ok tt) ->
  exists id_column ids,
    get_single_col_by_input_type ID get_column_definition = Ok id_column /\
    df_getitem (frame_of w df) id_column = Ok ids /\
    identifiers (self w') = Some (first_occurrences ids) /\
    NoDup (first_occurrences ids) /\
    (forall x, In x (first_occurrences ids) <-> In x ids).
Proof.
  intros df w w' H.
  apply set_scalers_attributes in H
    as (ids & data & Xf & target & xt & stock &
        Hids & _ & _ & _ & _ & _ & Hid & _).
  exists "id"%string, ids.
  rewrite <- unique_first_occurrences.
  repeat split; try assumption.
  - apply NoDup_unique.
  - apply In_unique.
  - apply In_unique.
Qed.

(** C9: the label encoder and the class count that [set_scalers] stores
    for the categorical column are determined by the set of the distinct
    strings of that column: the classes are these strings in increasing
    order, without repetition, and the count is their number.  Two
    calibrations on columns with the same set of strings, and so two
    calibrations on the same table, store the same encoder and the same
    count, and a second calibration on the same table right after the
    first leaves the formatter as the first left it. *)
Theorem C9_categorical_determinism : forall df1 w1 w1' df2 w2 w2',
  set_scalers df1 w1 = (w1', Ok tt) ->
  set_scalers df2 w2 = (w2', Ok tt) ->
  exists stock1 stock2 classes,
    df_getitem (frame_of w1 df1) "STOCK" = Ok stock1 /\
    df_getitem (frame_of w2 df2) "STOCK" = Ok stock2 /\
    _cat_scalers (self w1') =
      Some [("STOCK"%string, {| classes_ := classes |})] /\
    _num_classes_per_cat_input (self w1') = Some [length classes] /\
    StronglySorted String_as_OT.lt classes /\
    (forall x, In x classes <-> In x (map py_str stock1)) /\
    ((forall x, In x (map py_str stock1) <-> In x (map py_str stock2)) ->
     _cat_scalers (self w2') = _cat_scalers (self w1') /\
     _num_classes_per_cat_input (self w2') =
       _num_classes_per_cat_input (self w1')) /\
    (frame_of w1 df1 = frame_of w2 df2 ->
     _cat_scalers (self w2') = _cat_scalers (self w1') /\
     _num_classes_per_cat_input (self w2') =
       _num_classes_per_cat_input (self w1')) /\
    set_scalers df1 w1' = (w1', Ok tt).
Proof.
  intros df1 w1 w1' df2 w2 w2' H1 H2.
  pose proof H1 as Hrun1.
  apply set_scalers_attributes in H1
    as (ids1 & data1 & Xf1 & target1 & xt1 & stock1 &
        _ & _ & _ & _ & _ & Hstock1 & _ & _ & _ & Hcat1 & Hnum1 & _).
  apply set_scalers_attributes in H2
    as (ids2 & data2 & Xf2 & target2 & xt2 & stock2 &
        _ & _ & _ & _ & _ & Hstock2 & _ & _ & _ & Hcat2 & Hnum2 & _).
  assert (Hset : (forall x, In x (map py_str stock1) <->
                            In x (map py_str stock2)) ->
     _cat_scalers (self w2') = _cat_scalers (self w1') /\
     _num_classes_per_cat_input (self w2') =
       _num_classes_per_cat_input (self w1')).
  { intros Hsame. rewrite Hcat1, Hcat2, Hnum1, Hnum2.
    rewrite (np_unique_ext _ _ Hsame), (nunique_ext _ _ Hsame).
    split; reflexivity. }
  exists stock1, stock2, (np_unique (map py_str stock1)).
  repeat (split; [first [assumption | apply np_unique_sorted
                        | apply In_np_unique] |]).
  split; [now rewrite Hnum1, nunique_np_unique |].
  split; [apply np_unique_sorted |].
  split; [apply In_np_unique |].
  split; [exact Hset |].
  split.
  - intros Hsame. apply Hset. rewrite Hsame in Hstock1.
    rewrite Hstock1 in Hstock2. injection Hstock2 as <-. tauto.
  - apply set_scalers_Ok in Hrun1
      as (ids & data & rs & tdata & ts & stock &
          A1 & A2 & A3 & A4 & A5 & A6 & ->).
    now rewrite (set_scalers_intro df1 _ ids data rs tdata ts stock).
Qed.

(** The frames and the calibration that [split_data] leaves. *)
Lemma split_data_train : forall df vb tb w w' g,
  df < length (frames w) ->
  split_data df vb tb w = (w', Ok g) ->
  exists index m_train m_ge m_lt m_test w1,
    df_getitem (frame_of w df) "DAY" = Ok index /\
    series_lt index vb = Ok m_train /\
    series_ge index vb = Ok m_ge /\
    series_lt index tb = Ok m_lt /\
    series_ge index tb = Ok m_test /\
    frame_of w1 (length (frames w)) = df_loc (frame_of w df) m_train /\
    set_scalers (length (frames w)) w1 = (w', Ok tt) /\
    frames w' = frames w ++
      [df_loc (frame_of w df) m_train;
       df_loc (frame_of w df) (mask_and m_ge m_lt);
       df_loc (frame_of w df) m_test] /\
    g = map transform_inputs
          [length (frames w); S (length (frames w));
           S (S (length (frames w)))].
Proof.
  intros df vb tb w w' g Hdf H.
  apply split_data_Ok in H
    as (index & m_train & m_ge & m_lt & m_test &
        H1 & H2 & H3 & H4 & H5 & Hset & Hg); [| assumption].
  exists index, m_train, m_ge, m_lt, m_test.
  match type of Hset with set_scalers _ ?w1 = _ => exists w1 end.
  repeat (split; [eassumption |]).
  split; [unfold frame_of at 1; cbn [frames]; apply nth_app_first |].
  split; [exact Hset |]. split; [| exact Hg].
  apply set_scalers_attributes in Hset
    as (? & ? & ? & ? & ? & ? & _ & _ & _ & _ & _ & _ & _ & _ & _ & _ & _ & E).
  exact E.
Qed.

(** C2: the statistics that [split_data] calibrates are computed from the
    training partition, the rows whose [DAY] is below [valid_boundary]:
    the identifiers, the mean and the scale of every real-valued column
    and of the target column, the sorted labels of the categorical column
    and their number are those of the columns of that partition.  A second
    table (and a second test boundary) with the same training partition
    gives the same statistics, whatever its other rows are. *)
Theorem C2_calibration_from_train_only : forall df vb tb w w' g,
  df < length (frames w) ->
  split_data df vb tb w = (w', Ok g) ->
  exists index m_train train,
    df_getitem (frame_of w df) "DAY" = Ok index /\
    series_lt index vb = Ok m_train /\
    train = df_loc (frame_of w df) m_train /\
    (exists ids data Xf target xt stock,
       df_getitem train "id" = Ok ids /\
       df_getitems train real_inputs = Ok data /\
       mapM (mapM to_float) data = Ok Xf /\
       df_getitem train "rolling_volatility" = Ok target /\
       mapM to_float target = Ok xt /\
       df_getitem train "STOCK" = Ok stock /\
       identifiers (self w') = Some (unique cell_eq_dec ids) /\
       _real_scalers (self w') =
         Some {| stats :=
           map (fun xs =>
                  (mean xs, handle_zeros_in_scale (sqrt (variance xs)))) Xf |} /\
       _target_scaler (self w') =
         Some {| stats :=
           [(mean xt, handle_zeros_in_scale (sqrt (variance xt)))] |} /\
       _cat_scalers (self w') =
         Some [("STOCK"%string,
                {| classes_ := np_unique (map py_str stock) |})] /\
       _num_classes_per_cat_input (self w') =
         Some [nunique string_dec (map py_str stock)]) /\
    (forall df2 tb2 w2 w2' g2 index2 m_train2,
       df2 < length (frames w2) ->
       split_data df2 vb tb2 w2 = (w2', Ok g2) ->
       df_getitem (frame_of w2 df2) "DAY" = Ok index2 ->
       series_lt index2 vb = Ok m_train2 ->
       df_loc (frame_of w2 df2) m_train2 = train ->
       identifiers (self w2') = identifiers (self w') /\
       _real_scalers (self w2') = _real_scalers (self w') /\
       _target_scaler (self w2') = _target_scaler (self w') /\
       _cat_scalers (self w2') = _cat_scalers (self w') /\
       _num_classes_per_cat_input (self w2') =
         _num_classes_per_cat_input (self w')).
Proof.
  intros df vb tb w w' g Hdf H.
  apply split_data_train in H
    as (index & m_train & m_ge & m_lt & m_test & w1 &
        Hindex & Hm & _ & _ & _ & Htrain & Hset & _ & _); [| assumption].
  apply set_scalers_attributes in Hset
    as (ids & data & Xf & target & xt & stock &
        A1 & A2 & A3 & A4 & A5 & A6 & B1 & B2 & B3 & B4 & B5 & _).
  rewrite Htrain in A1, A2, A4, A6.
  exists index, m_train, (df_loc (frame_of w df) m_train).
  repeat (split; [first [assumption | reflexivity] |]).
  split.
  - exists ids, data, Xf, target, xt, stock.
    repeat (split; [assumption |]). assumption.
  - intros df2 tb2 w2 w2' g2 index2 m_train2 Hdf2 H2 Hindex2 Hm2 Hsame.
    apply split_data_train in H2
      as (index' & m' & _ & _ & _ & w1' &
          Hindex' & Hm' & _ & _ & _ & Htrain' & Hset' & _ & _);
      [| assumption].
    rewrite Hindex2 in Hindex'. injection Hindex' as <-.
    rewrite Hm2 in Hm'. injection Hm' as <-.
    apply set_scalers_attributes in Hset'
      as (ids' & data' & Xf' & target' & xt' & stock' &
          A1' & A2' & A3' & A4' & A5' & A6' &
          B1' & B2' & B3' & B4' & B5' & _).
    rewrite Htrain', Hsame in A1', A2', A4', A6'.
    rewrite A1 in A1'. injection A1' as <-.
    rewrite A2 in A2'. injection A2' as <-.
    rewrite A3 in A3'. injection A3' as <-.
    rewrite A4 in A4'. injection A4' as <-.
    rewrite A5 in A5'. injection A5' as <-.
    rewrite A6 in A6'. injection A6' as <-.
    rewrite B1, B2, B3, B4, B5, B1', B2', B3', B4', B5'.
    repeat split; reflexivity.
Qed.

Lemma masks_rows : forall index vb tb m_train m_ge m_lt m_test,
  series_lt index vb = Ok m_train ->
  series_ge index vb = Ok m_ge ->
  series_lt index tb = Ok m_lt ->
  series_ge index tb = Ok m_test ->
  forall i x, nth_error index i = Some x ->
    exists c1 c2,
      cell_compare x vb = Ok c1 /\ cell_compare x tb = Ok c2 /\
      nth_error m_train i = Some (is_lt c1) /\
      nth_error (mask_and m_ge m_lt) i
        = Some (negb (is_lt c1) && is_lt c2) /\
      nth_error m_test i = Some (negb (is_lt c2)).
Proof.
  unfold series_lt, series_ge.
  induction index as [| y index IH];
    intros vb tb m_train m_ge m_lt m_test H1 H2 H3 H4 i x Hi;
    [destruct i; discriminate |].
  simpl in H1, H2, H3, H4.
  apply rbind_Ok in H1 as (b1 & Hb1 & H1).
  apply rbind_Ok in H1 as (r1 & Hr1 & H1). injection H1 as <-.
  apply rbind_Ok in H2 as (b2 & Hb2 & H2).
  apply rbind_Ok in H2 as (r2 & Hr2 & H2). injection H2 as <-.
  apply rbind_Ok in H3 as (b3 & Hb3 & H3).
  apply rbind_Ok in H3 as (r3 & Hr3 & H3). injection H3 as <-.
  apply rbind_Ok in H4 as (b4 & Hb4 & H4).
  apply rbind_Ok in H4 as (r4 & Hr4 & H4). injection H4 as <-.
  destruct i as [| i].
  - simpl in Hi. injection Hi as <-.
    apply rbind_Ok in Hb1 as (c1 & Hc1 & E1). injection E1 as <-.
    apply rbind_Ok in Hb2 as (c2 & Hc2 & E2). injection E2 as <-.
    apply rbind_Ok in Hb3 as (c3 & Hc3 & E3). injection E3 as <-.
    apply rbind_Ok in Hb4 as (c4 & Hc4 & E4). injection E4 as <-.
    rewrite Hc1 in Hc2. injection Hc2 as <-.
    rewrite Hc3 in Hc4. injection Hc4 as <-.
    exists c1, c3. repeat split; assumption || reflexivity.
  - simpl in Hi. cbn [nth_error mask_and combine map].
    now apply (IH vb tb r1 r2 r3 r4).
Qed.

Lemma series_lt_length : forall index b m,
  series_lt index b = Ok m -> length m = length index.
Proof. intros index b m H. now apply mapM_length in H. Qed.

Lemma series_ge_length : forall index b m,
  series_ge index b = Ok m -> length m = length index.
Proof. intros index b m H. now apply mapM_length in H. Qed.

Lemma mask_and_length : forall m1 m2,
  length m1 = length m2 -> length (mask_and m1 m2) = length m1.
Proof.
  intros m1 m2 H. unfold mask_and.
  rewrite length_map, length_combine. lia.
Qed.

Lemma consume_three : forall a b c w w2 res,
  consume [transform_inputs a; transform_inputs b; transform_inputs c] w
  = (w2, Ok res) ->
  exists wa wb ra rb rc,
    transform_inputs a w = (wa, Ok ra) /\
    transform_inputs b wa = (wb, Ok rb) /\
    transform_inputs c wb = (w2, Ok rc) /\
    res = [ra; rb; rc].
Proof.
  intros a b c w w2 res. cbn [consume]. unfold mbind, mret.
  destruct (transform_inputs a w) as [wa [ra | e]] eqn:Ha; [| discriminate].
  destruct (transform_inputs b wa) as [wb [rb | e]] eqn:Hb; [| discriminate].
  destruct (transform_inputs c wb) as [wc [rc | e]] eqn:Hc; [| discriminate].
  intros H. injection H as <- <-.
  exists wa, wb, ra, rb, rc. repeat split; assumption || reflexivity.
Qed.



(** C3: on a freshly constructed formatter [transform_inputs] raises
    [ValueError('Scalers have not been set!')] for every frame, after it
    has copied the frame.  [format_predictions] has no such check: on a
    fresh formatter it returns the copy of a frame that holds only the
    columns [forecast_time] and [identifier], and for a frame with a
    prediction column it raises an [AttributeError] on the target scaler
    that is [None]. *)
Theorem C3_uncalibrated_calls :
  (forall df fs,
     transform_inputs df {| self := __init__; frames := fs |}
     = ({| self := __init__; frames := fs ++ [nth df fs []] |},
        Err (ValueError "Scalers have not been set!"))) /\
  (forall times names,
     format_predictions 0
       {| self := __init__;
          frames := [[("forecast_time"%string, times);
                      ("identifier"%string, names)]] |}
     = ({| self := __init__;
           frames := [[("forecast_time"%string, times);
                       ("identifier"%string, names)];
                      [("forecast_time"%string, times);
                       ("identifier"%string, names)]] |},
        Ok 1)) /\
  (forall times names values,
     snd (format_predictions 0
            {| self := __init__;
               frames := [[("forecast_time"%string, times);
                           ("identifier"%string, names);
                           ("t+1"%string, values)]] |})
     = Err (AttributeError
              "'NoneType' object has no attribute 'inverse_transform'")).
Proof.
  repeat split; intros; reflexivity.
Qed.

(** ** Further properties of the methods *)

Lemma set_scalers_any : forall df w w' r,
  set_scalers df w = (w', r) ->
  frames w' = frames w /\
  _time_steps (self w') = _time_steps (self w) /\
  _num_encoder_steps (self w') = _num_encoder_steps (self w) /\
  (forall e, r = Err e ->
     _cat_scalers (self w') = _cat_scalers (self w) /\
     _num_classes_per_cat_input (self w') =
       _num_classes_per_cat_input (self w)).
Proof.
  intros df w w' r. unfold set_scalers.
  fold real_inputs categorical_inputs.
  rewrite categorical_inputs_eq, id_column_eq, target_column_eq.
  msimpl. repeat mdestruct;
    intros H; injection H as <- <-; cbn [self frames];
    repeat split; intros; try reflexivity; try discriminate.
Qed.

Lemma format_predictions_loop_any : forall p n cols s h o w' r,
  for_each cols
    (fun col =>
       if negb (reserved col) then
         (s0 <- get_self ;;
          target_scaler <-
            match _target_scaler s0 with
            | Some sc => mret sc
            | None => attribute_of_None "'inverse_transform'"
            end ;;
          column <- getitem p col ;;
          values <- lift (StandardScaler_inverse_transform target_scaler column) ;;
          setitem n col values)%M
       else mret tt)
    {| self := s; frames := h ++ [o] |} = (w', r) ->
  n = length h ->
  self w' = s /\ exists o', frames w' = h ++ [o'].
Proof.
  intros p n cols; induction cols as [| col cols IH];
    intros s h o w' r H Hn.
  - injection H as <- <-. cbn [self frames]. eauto.
  - cbn [for_each] in H. unfold mbind at 1 in H.
    destruct (negb (reserved col)).
    + revert H. msimpl.
      destruct (_target_scaler s) as [ts |]; msimpl.
      2:{ intros H. injection H as <- <-. cbn [self frames]. eauto. }
      destruct (df_getitem (nth p (h ++ [o]) []) col) as [column | e];
        msimpl.
      2:{ intros H. injection H as <- <-. cbn [self frames]. eauto. }
      destruct (StandardScaler_inverse_transform ts column) as [values | e];
        msimpl.
      2:{ intros H. injection H as <- <-. cbn [self frames]. eauto. }
      subst n. rewrite nth_app_new, replace_nth_new.
      intros H. eapply IH; [exact H | reflexivity].
    + unfold mret at 1 in H. eapply IH; eassumption.
Qed.

Lemma format_predictions_any : forall p w w' r,
  format_predictions p w = (w', r) ->
  self w' = self w /\ exists o, frames w' = frames w ++ [o].
Proof.
  intros p w w' r. unfold format_predictions.
  unfold mbind at 1. unfold copy, mbind at 1. unfold load at 1, alloc at 1.
  cbn [self frames].
  unfold mbind at 1. unfold get_columns, mbind at 1, load at 1, mret at 1.
  cbn [self frames].
  unfold mbind at 1.
  match goal with
  | |- context [for_each ?cols ?body ?w0] =>
      destruct (for_each cols body w0) as [w1 r1] eqn:Hloop
  end.
  apply format_predictions_loop_any in Hloop as (Hs & o' & Hf);
    [| reflexivity].
  destruct r1 as [[] | e]; unfold mret; intros H; injection H as <- <-;
    eauto.
Qed.

Lemma split_data_any : forall df vb tb w w' r,
  split_data df vb tb w = (w', r) ->
  (exists new, frames w' = frames w ++ new /\ length new <= 3) /\
  _time_steps (self w') = _time_steps (self w) /\
  _num_encoder_steps (self w') = _num_encoder_steps (self w).
Proof.
  intros df vb tb w w' r. unfold split_data. msimpl.
  repeat (mdestruct; rewrite <- ?app_assoc in *; cbn [app] in * );
    try (intros H; injection H as <- <-; cbn [self frames];
         split;
         [first [ exists []; split; [now rewrite app_nil_r | simpl; lia]
                | eexists; split; [reflexivity | simpl; lia] ]
         | split; reflexivity]).
  match goal with
  | |- context [set_scalers ?l ?w0] =>
      destruct (set_scalers l w0) as [w1 r1] eqn:Hs
  end.
  apply set_scalers_any in Hs as (Hf & Ht & Hn & _). cbn [self frames] in *.
  destruct r1 as [[] | e]; intros H; injection H as <- <-;
    (split; [eexists; split; [exact Hf | simpl; lia] | split; assumption]).
Qed.


Lemma after_call_frames : forall w c,
  exists new, frames (after_call w c) = frames w ++ new.
Proof.
  intros w [df | df | p | df vb tb | d]; cbn [after_call].
  - destruct (set_scalers df w) as [w' r] eqn:H.
    apply set_scalers_any in H as (Hf & _). cbn [fst].
    exists []. now rewrite app_nil_r.
  - destruct (transform_inputs df w) as [w' r] eqn:H.
    apply transform_inputs_run in H as (_ & o & Hf). cbn [fst]. eauto.
  - destruct (format_predictions p w) as [w' r] eqn:H.
    apply format_predictions_any in H as (_ & o & Hf). cbn [fst]. eauto.
  - destruct (split_data df vb tb w) as [w' r] eqn:H.
    apply split_data_any in H as ((new & Hf & _) & _). cbn [fst]. eauto.
  - cbn. eauto.
Qed.

Lemma after_call_steps : forall w c,
  _time_steps (self (after_call w c)) = _time_steps (self w) /\
  _num_encoder_steps (self (after_call w c)) = _num_encoder_steps (self w).
Proof.
  intros w [df | df | p | df vb tb | d]; cbn [after_call].
  - destruct (set_scalers df w) as [w' r] eqn:H.
    apply set_scalers_any in H as (_ & Ht & Hn & _). cbn [fst]. auto.
  - destruct (transform_inputs df w) as [w' r] eqn:H.
    apply transform_inputs_run in H as (Hs & _). cbn [fst].
    now rewrite Hs.
  - destruct (format_predictions p w) as [w' r] eqn:H.
    apply format_predictions_any in H as (Hs & _). cbn [fst].
    now rewrite Hs.
  - destruct (split_data df vb tb w) as [w' r] eqn:H.
    apply split_data_any in H as (_ & Ht & Hn). cbn [fst]. auto.
  - cbn. auto.
Qed.

(** X1: the attributes [_time_steps] and [_num_encoder_steps] that
    [__init__] sets are never assigned again: after any sequence of calls
    on a new formatter, returning or raising, they are what
    [get_time_steps] and [get_num_encoder_steps] return. *)
Theorem X1_time_steps_invariant : forall fs calls,
  _time_steps (self (after_calls {| self := __init__; frames := fs |} calls))
    = get_time_steps
        (self (after_calls {| self := __init__; frames := fs |} calls)) /\
  _num_encoder_steps
      (self (after_calls {| self := __init__; frames := fs |} calls))
    = get_num_encoder_steps
        (self (after_calls {| self := __init__; frames := fs |} calls)).
Proof.
  intros fs calls. unfold get_time_steps, get_num_encoder_steps.
  change (total_time_steps (get_fixed_params 20))
    with (_time_steps (self {| self := __init__; frames := fs |})).
  change (num_encoder_steps (get_fixed_params 20))
    with (_num_encoder_steps (self {| self := __init__; frames := fs |})).
  generalize {| self := __init__; frames := fs |}. intros w.
  unfold after_calls. revert w.
  induction calls as [| c calls IH]; intros w; [split; reflexivity |].
  cbn [fold_left]. destruct (IH (after_call w c)) as [H1 H2].
  destruct (after_call_steps w c) as [E1 E2].
  rewrite H1, H2, E1, E2. split; reflexivity.
Qed.

(** X2: no method changes a frame that exists.  After any sequence of
    calls of [set_scalers], [transform_inputs], [format_predictions] and
    [split_data], returning or raising, every frame that existed before is
    as it was; frames are only added. *)
Theorem X2_existing_frames_unchanged : forall w calls l,
  l < length (frames w) ->
  frame_of (after_calls w calls) l = frame_of w l /\
  length (frames w) <= length (frames (after_calls w calls)).
Proof.
  intros w calls l Hl.
  assert (H : exists new, frames (after_calls w calls) = frames w ++ new).
  { unfold after_calls. revert w Hl.
    induction calls as [| c calls IH]; intros w Hl; cbn [fold_left].
    - exists []. now rewrite app_nil_r.
    - destruct (after_call_frames w c) as (n1 & E1).
      destruct (IH (after_call w c)) as (n2 & E2).
      + rewrite E1, length_app. lia.
      + exists (n1 ++ n2). rewrite E2, E1. now rewrite app_assoc. }
  destruct H as (new & E). unfold frame_of. rewrite E. split.
  - now apply nth_app_old_many.
  - rewrite length_app. lia.
Qed.


(** *** The exceptions a call can raise *)

Lemma mapM_Err : forall {A B} (f : A -> result B) l e,
  mapM f l = Err e -> exists a, In a l /\ f a = Err e.
Proof.
  intros A B f l e; induction l as [| a l IH]; simpl; intros H;
    [discriminate |].
  destruct (f a) as [b |] eqn:Ha; simpl in H.
  - destruct (mapM f l) as [bs |] eqn:Hl; simpl in H; [discriminate |].
    injection H as ->. destruct (IH eq_refl) as (a' & Hin & Ha').
    exists a'. auto.
  - injection H as ->. exists a. auto.
Qed.

Lemma df_getitem_Err : forall d c e,
  df_getitem d c = Err e -> e = KeyError c.
Proof.
  induction d as [| [k s] d IH]; simpl; intros c e H.
  - now injection H as <-.
  - destruct (String.eqb k c); [discriminate | now apply IH].
Qed.

Lemma df_getitems_Err : forall d cols e,
  df_getitems d cols = Err e -> exists c, In c cols /\ e = KeyError c.
Proof.
  intros d cols e H. apply mapM_Err in H as (c & Hc & H).
  apply df_getitem_Err in H. eauto.
Qed.

Lemma dict_get_Err : forall {V} (d : list (string * V)) k e,
  dict_get d k = Err e -> e = KeyError k.
Proof.
  intros V d; induction d as [| [k' v] d IH]; simpl; intros k e H.
  - now injection H as <-.
  - destruct (String.eqb k' k); [discriminate | now apply IH].
Qed.

Lemma to_float_Err : forall c e,
  to_float c = Err e -> e = ValueError "could not convert string to float".
Proof.
  intros [x | n | s] e H; simpl in H; try discriminate.
  destruct (float_of_str s); [discriminate | now injection H as <-].
Qed.

Lemma check_array_Err : forall X e, check_array X = Err e -> array_error e.
Proof.
  intros X e H. unfold check_array in H.
  destruct (mapM (mapM to_float) X) as [Xf |] eqn:HX; simpl in H.
  - destruct (Nat.eqb (n_samples Xf) 0); [| discriminate].
    injection H as <-. now right.
  - injection H as ->. apply mapM_Err in HX as (col & _ & HX).
    apply mapM_Err in HX as (c & _ & HX). apply to_float_Err in HX.
    now left.
Qed.

Lemma StandardScaler_fit_Err : forall X e,
  StandardScaler_fit X = Err e -> array_error e.
Proof.
  intros X e H. unfold StandardScaler_fit in H.
  destruct (check_array X) as [Xf |] eqn:HX; simpl in H; [discriminate |].
  injection H as ->. now apply check_array_Err in HX.
Qed.

Lemma StandardScaler_transform_Err : forall sc X e,
  StandardScaler_transform sc X = Err e ->
  array_error e \/
  e = ValueError
        "X has a different number of features than StandardScaler is expecting".
Proof.
  intros sc X e H. unfold StandardScaler_transform in H.
  destruct (check_array X) as [Xf |] eqn:HX; simpl in H.
  - destruct (Nat.eqb (length Xf) (length (stats sc))); [discriminate |].
    injection H as <-. now right.
  - injection H as ->. left. now apply check_array_Err in HX.
Qed.

Lemma LabelEncoder_transform_Err : forall enc ys e,
  LabelEncoder_transform enc ys = Err e ->
  e = ValueError "y contains previously unseen labels".
Proof.
  intros enc ys e H. unfold LabelEncoder_transform in H.
  apply mapM_Err in H as (y & _ & H). unfold encode in H.
  destruct (index_of y (classes_ enc)); [discriminate | now injection H as <-].
Qed.

Lemma transform_inputs_guard : forall df w,
  snd (transform_inputs df w) = Err (ValueError "Scalers have not been set!")
  <-> _real_scalers (self w) = None /\ _cat_scalers (self w) = None.
Proof.
  intros df w. unfold transform_inputs.
  fold real_inputs categorical_inputs. rewrite categorical_inputs_eq.
  msimpl. split.
  - destruct (_real_scalers (self w)) as [rs |] eqn:Hrs;
      destruct (_cat_scalers (self w)) as [cats |] eqn:Hcats; msimpl;
      try (intros _; split; reflexivity); try discriminate.
    + destruct (df_getitems (nth df (frames w) []) real_inputs)
        as [data | e] eqn:E1; msimpl.
      2:{ cbn [snd]. intros H. injection H as ->.
          apply df_getitems_Err in E1 as (c & _ & E1). discriminate E1. }
      destruct (StandardScaler_transform rs data) as [scaled | e] eqn:E2;
        msimpl.
      2:{ cbn [snd]. intros H. injection H as ->.
          apply StandardScaler_transform_Err in E2 as [[E2 | E2] | E2];
            discriminate E2. }
      match goal with
      | |- context [df_getitem ?d "STOCK"] =>
          destruct (df_getitem d "STOCK") as [stock | e] eqn:E3
      end; msimpl.
      2:{ cbn [snd]. intros H. injection H as ->.
          apply df_getitem_Err in E3. discriminate E3. }
      destruct (dict_get cats "STOCK") as [enc | e] eqn:E4; msimpl.
      2:{ cbn [snd]. intros H. injection H as ->.
          apply dict_get_Err in E4. discriminate E4. }
      destruct (LabelEncoder_transform enc (map py_str stock))
        as [codes | e] eqn:E5; msimpl; cbn [snd]; [discriminate |].
      intros H. injection H as ->.
      apply LabelEncoder_transform_Err in E5. discriminate E5.
    + destruct (df_getitems (nth df (frames w) []) real_inputs)
        as [data | e] eqn:E1; msimpl.
      2:{ cbn [snd]. intros H. injection H as ->.
          apply df_getitems_Err in E1 as (c & _ & E1). discriminate E1. }
      destruct (StandardScaler_transform rs data) as [scaled | e] eqn:E2;
        msimpl.
      2:{ cbn [snd]. intros H. injection H as ->.
          apply StandardScaler_transform_Err in E2 as [[E2 | E2] | E2];
            discriminate E2. }
      match goal with
      | |- context [df_getitem ?d "STOCK"] =>
          destruct (df_getitem d "STOCK") as [stock | e] eqn:E3
      end; msimpl; cbn [snd]; [discriminate |].
      intros H. injection H as ->.
      apply df_getitem_Err in E3. discriminate E3.
  - intros [-> ->]. reflexivity.
Qed.


(** X3: [transform_inputs] raises [ValueError('Scalers have not been
    set!')] exactly when both [_real_scalers] and [_cat_scalers] are
    [None]; no other step of the method raises this exception. *)
Theorem X3_scalers_not_set_iff_both_unset : forall df w,
  snd (transform_inputs df w) = Err (ValueError "Scalers have not been set!")
  <-> _real_scalers (self w) = None /\ _cat_scalers (self w) = None.
Proof. exact transform_inputs_guard. Qed.

(** The exceptions of [set_scalers]: a [KeyError] for a column of the
    schema that the table lacks, or the [ValueError] of the validation of
    the arrays. *)
Lemma set_scalers_Err : forall df w w' e,
  set_scalers df w = (w', Err e) ->
  (exists c, e = KeyError c /\ schema_key c) \/ array_error e.
Proof.
  intros df w w' e. unfold set_scalers.
  fold real_inputs categorical_inputs.
  rewrite categorical_inputs_eq, id_column_eq, target_column_eq.
  msimpl. unfold schema_key.
  destruct (df_getitem (nth df (frames w) []) "id") as [ids | e0] eqn:E1;
    msimpl.
  2:{ intros H. injection H as _ <-. apply df_getitem_Err in E1.
      left. exists "id"%string. auto. }
  destruct (df_getitems (nth df (frames w) []) real_inputs)
    as [data | e0] eqn:E2; msimpl.
  2:{ intros H. injection H as _ <-.
      apply df_getitems_Err in E2 as (c & Hc & ->). left. exists c. auto. }
  destruct (StandardScaler_fit data) as [rs | e0] eqn:E3; msimpl.
  2:{ intros H. injection H as _ <-. right.
      now apply StandardScaler_fit_Err in E3. }
  destruct (df_getitems (nth df (frames w) []) ["rolling_volatility"%string])
    as [tdata | e0] eqn:E4; msimpl.
  2:{ intros H. injection H as _ <-.
      apply df_getitems_Err in E4 as (c & [<- | []] & ->).
      left. exists "rolling_volatility"%string. split; [reflexivity |].
      right. left. rewrite real_inputs_eq. simpl. tauto. }
  destruct (StandardScaler_fit tdata) as [ts | e0] eqn:E5; msimpl.
  2:{ intros H. injection H as _ <-. right.
      now apply StandardScaler_fit_Err in E5. }
  destruct (df_getitem (nth df (frames w) []) "STOCK") as [stock | e0] eqn:E6;
    msimpl.
  2:{ intros H. injection H as _ <-. apply df_getitem_Err in E6.
      left. exists "STOCK"%string. auto. }
  intros H. discriminate H.
Qed.

Lemma set_scalers_KeyError_STOCK : forall df w w',
  set_scalers df w = (w', Err (KeyError "STOCK")) ->
  exists ids rs ts,
    w' = {| self :=
              with_target_scaler (Some ts)
                (with_real_scalers (Some rs)
                   (with_identifiers (Some (unique cell_eq_dec ids))
                      (self w)));
            frames := frames w |} /\
    df_getitem (frame_of w df) "STOCK" = Err (KeyError "STOCK").
Proof.
  intros df w w'. unfold set_scalers, frame_of.
  fold real_inputs categorical_inputs.
  rewrite categorical_inputs_eq, id_column_eq, target_column_eq.
  msimpl.
  destruct (df_getitem (nth df (frames w) []) "id") as [ids | e0] eqn:E1;
    msimpl.
  2:{ intros H. injection H as _ ->. apply df_getitem_Err in E1.
      discriminate E1. }
  destruct (df_getitems (nth df (frames w) []) real_inputs)
    as [data | e0] eqn:E2; msimpl.
  2:{ intros H. injection H as _ ->.
      apply df_getitems_Err in E2 as (c & Hc & E2).
      injection E2 as <-. apply real_inputs_not_categorical in Hc.
      exfalso. apply Hc. rewrite categorical_inputs_eq. now left. }
  destruct (StandardScaler_fit data) as [rs | e0] eqn:E3; msimpl.
  2:{ intros H. injection H as _ ->.
      apply StandardScaler_fit_Err in E3 as [E3 | E3]; discriminate E3. }
  destruct (df_getitems (nth df (frames w) []) ["rolling_volatility"%string])
    as [tdata | e0] eqn:E4; msimpl.
  2:{ intros H. injection H as _ ->.
      apply df_getitems_Err in E4 as (c & [<- | []] & E4). discriminate E4. }
  destruct (StandardScaler_fit tdata) as [ts | e0] eqn:E5; msimpl.
  2:{ intros H. injection H as _ ->.
      apply StandardScaler_fit_Err in E5 as [E5 | E5]; discriminate E5. }
  destruct (df_getitem (nth df (frames w) []) "STOCK") as [stock | e0] eqn:E6;
    msimpl; [intros H; discriminate H |].
  intros H. injection H as <- ->.
  exists ids, rs, ts. split; reflexivity.
Qed.

Lemma transform_inputs_no_encoders :
  forall df w rs data scaled stock,
  df < length (frames w) ->
  _real_scalers (self w) = Some rs ->
  _cat_scalers (self w) = None ->
  df_getitems (frame_of w df) real_inputs = Ok data ->
  StandardScaler_transform rs data = Ok scaled ->
  df_getitem (frame_of w df) "STOCK" = Ok stock ->
  snd (transform_inputs df w)
  = Err (TypeError "'NoneType' object is not subscriptable").
Proof.
  unfold frame_of.
  intros df w rs data scaled stock Hdf H1 H2 H4 H5 H6.
  unfold transform_inputs.
  fold real_inputs categorical_inputs. rewrite categorical_inputs_eq.
  msimpl. rewrite H1. msimpl. rewrite ?(nth_app_old _ _ _ Hdf).
  rewrite H4. msimpl. rewrite H5. msimpl. rewrite ?(nth_app_old _ _ _ Hdf).
  rewrite H6. msimpl. rewrite H2. reflexivity.
Qed.

(** X4: [set_scalers] is not atomic.  When it raises [KeyError('STOCK')]
    (the table lacks the categorical column) it has already stored the
    identifiers, the real scaler and the target scaler, and leaves
    [_cat_scalers] as it was.  On a formatter that was new, the check of
    [transform_inputs] then passes, and a table with all the columns makes
    it raise a [TypeError] on [_cat_scalers], which is [None], instead of
    the scalers-not-set error. *)
Theorem X4_failed_calibration_is_partial : forall df w w',
  set_scalers df w = (w', Err (KeyError "STOCK")) ->
  (exists ids rs ts,
     identifiers (self w') = Some ids /\
     _real_scalers (self w') = Some rs /\
     _target_scaler (self w') = Some ts) /\
  _cat_scalers (self w') = _cat_scalers (self w) /\
  frames w' = frames w /\
  (forall df2,
     snd (transform_inputs df2 w')
     <> Err (ValueError "Scalers have not been set!")) /\
  (_cat_scalers (self w) = None ->
   forall df2 rs data scaled stock,
     df2 < length (frames w') ->
     _real_scalers (self w') = Some rs ->
     df_getitems (frame_of w' df2) real_inputs = Ok data ->
     StandardScaler_transform rs data = Ok scaled ->
     df_getitem (frame_of w' df2) "STOCK" = Ok stock ->
     snd (transform_inputs df2 w')
     = Err (TypeError "'NoneType' object is not subscriptable")).
Proof.
  intros df w w' H.
  apply set_scalers_KeyError_STOCK in H as (ids & rs & ts & -> & _).
  cbn [self frames]. split; [| split; [| split; [| split]]].
  - exists (unique cell_eq_dec ids), rs, ts. repeat split; reflexivity.
  - reflexivity.
  - reflexivity.
  - intros df2 Hg. apply transform_inputs_guard in Hg as [Hg _].
    discriminate Hg.
  - intros Hnone df2 rs' data scaled stock Hdf2 Hrs Hdata Hsc Hstock.
    eapply transform_inputs_no_encoders; try eassumption.
Qed.

Lemma series_lt_Err : forall s b e,
  series_lt s b = Err e -> exists msg, e = TypeError msg.
Proof.
  intros s b e H. apply mapM_Err in H as (x & _ & H).
  destruct x, b; simpl in H; try discriminate; injection H as <-; eauto.
Qed.

Lemma series_ge_Err : forall s b e,
  series_ge s b = Err e -> exists msg, e = TypeError msg.
Proof.
  intros s b e H. apply mapM_Err in H as (x & _ & H).
  destruct x, b; simpl in H; try discriminate; injection H as <-; eauto.
Qed.

(** X5: [split_data] raises [KeyError('DAY')] exactly when the table has
    no column [DAY], and then nothing has happened: no frame was created
    and the formatter is as it was. *)
Theorem X5_split_data_missing_DAY : forall df vb tb w,
  (snd (split_data df vb tb w) = Err (KeyError "DAY") <->
   df_getitem (frame_of w df) "DAY" = Err (KeyError "DAY")) /\
  (snd (split_data df vb tb w) = Err (KeyError "DAY") ->
   fst (split_data df vb tb w) = w).
Proof.
  intros df vb tb w.
  assert (Hback : df_getitem (frame_of w df) "DAY" = Err (KeyError "DAY") ->
                  split_data df vb tb w = (w, Err (KeyError "DAY"))).
  { unfold split_data, frame_of. msimpl. intros ->. reflexivity. }
  assert (Hfwd : snd (split_data df vb tb w) = Err (KeyError "DAY") ->
                 df_getitem (frame_of w df) "DAY" = Err (KeyError "DAY")).
  { unfold split_data, frame_of. msimpl.
    destruct (df_getitem (nth df (frames w) []) "DAY") as [index | e] eqn:E;
      msimpl.
    2:{ cbn [snd]. intros H. injection H as ->. reflexivity. }
    destruct (series_lt index vb) as [m1 | e] eqn:E1; msimpl.
    2:{ cbn [snd]. intros H. injection H as ->.
        apply series_lt_Err in E1 as (msg & E1). discriminate E1. }
    destruct (series_ge index vb) as [m2 | e] eqn:E2; msimpl.
    2:{ cbn [snd]. intros H. injection H as ->.
        apply series_ge_Err in E2 as (msg & E2). discriminate E2. }
    destruct (series_lt index tb) as [m3 | e] eqn:E3; msimpl.
    2:{ cbn [snd]. intros H. injection H as ->.
        apply series_lt_Err in E3 as (msg & E3). discriminate E3. }
    destruct (series_ge index tb) as [m4 | e] eqn:E4; msimpl.
    2:{ cbn [snd]. intros H. injection H as ->.
        apply series_ge_Err in E4 as (msg & E4). discriminate E4. }
    match goal with
    | |- context [set_scalers ?l ?w0] =>
        destruct (set_scalers l w0) as [w1 [[] | e]] eqn:Hs
    end; cbn [snd]; [discriminate |].
    intros H. injection H as ->.
    apply set_scalers_Err in Hs as [(c & Hc & Hk) | [Hs | Hs]];
      try discriminate Hs.
    injection Hc as <-. exfalso. unfold schema_key in Hk.
    rewrite real_inputs_eq in Hk. simpl in Hk.
    intuition discriminate. }
  split; [split; [exact Hfwd |] |].
  - intros H. now rewrite (Hback H).
  - intros H. now rewrite (Hback (Hfwd H)).
Qed.


Lemma set_scalers_keeps_set : forall df w w' r,
  set_scalers df w = (w', r) ->
  (identifiers (self w) <> None -> identifiers (self w') <> None) /\
  (_real_scalers (self w) <> None -> _real_scalers (self w') <> None) /\
  (_target_scaler (self w) <> None -> _target_scaler (self w') <> None).
Proof.
  intros df w w' r. unfold set_scalers.
  fold real_inputs categorical_inputs.
  rewrite categorical_inputs_eq, id_column_eq, target_column_eq.
  msimpl. repeat mdestruct;
    intros H; injection H as <- <-; cbn [self frames];
    repeat split; intros; cbn; try assumption; try discriminate.
Qed.

Lemma not_None_Some : forall {A} (o : option A),
  o <> None -> exists a, o = Some a.
Proof. intros A [a |] H; [eauto | congruence]. Qed.

Lemma set_scalers_complete_or_unset : forall df w w' r,
  set_scalers df w = (w', r) ->
  complete_or_unset (self w) -> complete_or_unset (self w').
Proof.
  intros df w w' r H Hc. destruct r as [[] | e].
  - apply set_scalers_attributes in H
      as (ids & data & Xf & target & xt & stock &
          _ & _ & _ & _ & _ & _ & B1 & B2 & B3 & B4 & B5 & _).
    right. exists {| classes_ := np_unique (map py_str stock) |}.
    do 3 eexists. rewrite B1, B2, B3, B4, B5. cbn [classes_].
    rewrite nunique_np_unique. repeat split; try reflexivity.
    apply sorted_NoDup, np_unique_sorted.
  - pose proof H as H'. apply set_scalers_any in H as (_ & _ & _ & Hsame).
    destruct (Hsame e eq_refl) as [Ec En].
    apply set_scalers_keeps_set in H' as (K1 & K2 & K3).
    destruct Hc
      as [[C1 C2] | (enc & ids & rs & ts & C1 & C0 & C2 & C3 & C4 & C5)].
    + left. rewrite Ec, En. auto.
    + right.
      destruct (not_None_Some _ (K1 ltac:(congruence))) as (ids' & I1).
      destruct (not_None_Some _ (K2 ltac:(congruence))) as (rs' & I2).
      destruct (not_None_Some _ (K3 ltac:(congruence))) as (ts' & I3).
      exists enc, ids', rs', ts'. rewrite Ec, En. repeat split; assumption.
Qed.

Lemma after_call_complete_or_unset : forall w c,
  complete_or_unset (self w) -> complete_or_unset (self (after_call w c)).
Proof.
  intros w [df | df | p | df vb tb | d] Hc; cbn [after_call].
  - destruct (set_scalers df w) as [w' r] eqn:H. cbn [fst].
    eapply set_scalers_complete_or_unset; eassumption.
  - destruct (transform_inputs df w) as [w' r] eqn:H.
    apply transform_inputs_run in H as (Hs & _). cbn [fst]. now rewrite Hs.
  - destruct (format_predictions p w) as [w' r] eqn:H.
    apply format_predictions_any in H as (Hs & _). cbn [fst]. now rewrite Hs.
  - revert Hc. unfold split_data. msimpl.
    repeat (mdestruct; rewrite <- ?app_assoc in *; cbn [app] in * );
      try (cbn [fst self]; intros Hc; exact Hc).
    match goal with
    | |- context [set_scalers ?l ?w0] =>
        destruct (set_scalers l w0) as [w1 r1] eqn:Hs
    end.
    intros Hc.
    apply set_scalers_complete_or_unset in Hs; [| exact Hc].
    destruct r1 as [[] | e]; exact Hs.
  - exact Hc.
Qed.

Lemma after_calls_complete_or_unset : forall calls w,
  complete_or_unset (self w) ->
  complete_or_unset (self (after_calls w calls)).
Proof.
  unfold after_calls.
  induction calls as [| c calls IH]; intros w Hw; [exact Hw |].
  cbn [fold_left]. apply IH. now apply after_call_complete_or_unset.
Qed.

(** X6: on a formatter that started new, after any sequence of calls,
    returning or raising, the categorical attributes are in step: both
    [_cat_scalers] and [_num_classes_per_cat_input] are [None], or
    [_cat_scalers] holds the encoder of [STOCK], whose classes are
    distinct, [_num_classes_per_cat_input] holds the number of its
    classes, and the identifiers and the two scalers are set. *)
Theorem X6_encoders_and_class_counts_in_step : forall fs calls,
  complete_or_unset
    (self (after_calls {| self := __init__; frames := fs |} calls)).
Proof.
  intros fs calls. apply after_calls_complete_or_unset.
  left; split; reflexivity.
Qed.


Lemma transform_inputs_intro :
  forall df w rs cats enc data scaled stock codes,
  df < length (frames w) ->
  _real_scalers (self w) = Some rs ->
  _cat_scalers (self w) = Some cats ->
  dict_get cats "STOCK" = Ok enc ->
  df_getitems (frame_of w df) real_inputs = Ok data ->
  StandardScaler_transform rs data = Ok scaled ->
  df_getitem (frame_of w df) "STOCK" = Ok stock ->
  LabelEncoder_transform enc (map py_str stock) = Ok codes ->
  transform_inputs df w =
    ({| self := self w;
        frames := frames w ++
          [df_setitem (df_setitems (frame_of w df) real_inputs scaled)
                      "STOCK" codes] |},
     Ok (length (frames w))).
Proof.
  unfold frame_of.
  intros df w rs cats enc data scaled stock codes Hdf H1 H2 H3 H4 H5 H6 H7.
  unfold transform_inputs.
  fold real_inputs categorical_inputs. rewrite categorical_inputs_eq.
  msimpl. rewrite H1. msimpl. rewrite ?(nth_app_old _ _ _ Hdf).
  rewrite H4. msimpl. rewrite H5. msimpl. rewrite ?(nth_app_old _ _ _ Hdf).
  rewrite H6. msimpl. rewrite H2. msimpl. rewrite H3. msimpl.
  rewrite H7. msimpl. reflexivity.
Qed.

Lemma index_of_In : forall x l, In x l -> exists i, index_of x l = Some i.
Proof.
  intros x l H. destruct (index_of x l) as [i |] eqn:E; [eauto |].
  apply index_of_None in E. contradiction.
Qed.

Lemma LabelEncoder_transform_seen : forall enc ys,
  (forall y, In y ys -> In y (classes_ enc)) ->
  exists codes, LabelEncoder_transform enc ys = Ok codes.
Proof.
  intros enc ys. unfold LabelEncoder_transform.
  induction ys as [| y ys IH]; intros H; simpl; [eauto |].
  destruct (index_of_In y (classes_ enc)) as (i & Hi);
    [apply H; now left |].
  unfold encode at 1. rewrite Hi. simpl.
  destruct IH as (codes & ->); [intros z Hz; apply H; now right |].
  simpl. eauto.
Qed.

Lemma StandardScaler_transform_intro : forall sc X Xf,
  mapM (mapM to_float) X = Ok Xf ->
  n_samples Xf <> 0 ->
  length Xf = length (stats sc) ->
  StandardScaler_transform sc X = Ok (scale_columns (stats sc) Xf).
Proof.
  intros sc X Xf HX Hn Hl. unfold StandardScaler_transform, check_array.
  rewrite HX. simpl.
  destruct (Nat.eqb_spec (n_samples Xf) 0); [contradiction |].
  simpl. rewrite Hl, Nat.eqb_refl. reflexivity.
Qed.

Lemma calibration_table_transforms : forall df w w1,
  df < length (frames w) ->
  set_scalers df w = (w1, Ok tt) ->
  exists w2, transform_inputs df w1 = (w2, Ok (length (frames w1))).
Proof.
  intros df w w1 Hdf H.
  apply set_scalers_Ok in H
    as (ids & data & rs & tdata & ts & stock &
        _ & Hdata & Hrs & _ & _ & Hstock & ->).
  apply StandardScaler_fit_Ok in Hrs as (Xf & HXf & Hn & Hst).
  destruct (LabelEncoder_transform_seen
              (LabelEncoder_fit (map py_str stock)) (map py_str stock))
    as (codes & Hcodes).
  { intros y Hy. cbn [classes_ LabelEncoder_fit]. now apply In_np_unique. }
  set (w1 := {| self := calibrated_with (self w) ids rs ts stock;
                frames := frames w |}).
  eexists.
  apply (transform_inputs_intro df w1 rs
           [("STOCK"%string, LabelEncoder_fit (map py_str stock))]
           (LabelEncoder_fit (map py_str stock))
           data (scale_columns (stats rs) Xf) stock codes);
    try reflexivity; try assumption.
  apply StandardScaler_transform_intro; try assumption.
  rewrite Hst, length_map. reflexivity.
Qed.

(** X7: a table on which [set_scalers] has returned can be transformed by
    the formatter it calibrated: [transform_inputs] on the same table
    returns (its columns are present and numeric, it has a row, and every
    label of the categorical column is a calibrated class). *)
Theorem X7_calibration_table_transforms : forall df w w1,
  df < length (frames w) ->
  set_scalers df w = (w1, Ok tt) ->
  exists w2, transform_inputs df w1 = (w2, Ok (length (frames w1))).
Proof. exact calibration_table_transforms. Qed.


(** *** Standardized columns *)

Lemma Rsum_standardized : forall m s xs,
  Rsum (map (fun x => ((x - m) / s)%R) xs)
  = ((Rsum xs - INR (length xs) * m) / s)%R.
Proof.
  intros m s xs; induction xs as [| x xs IH].
  - simpl. unfold Rdiv. ring.
  - cbn [map Rsum fold_right length]. fold (Rsum xs).
    fold (Rsum (map (fun x => ((x - m) / s)%R) xs)).
    rewrite IH, S_INR. unfold Rdiv. ring.
Qed.

Lemma mean_standardized : forall s xs,
  mean (map (fun x => ((x - mean xs) / s)%R) xs) = 0%R.
Proof.
  intros s xs. unfold mean at 1. rewrite Rsum_standardized, length_map.
  destruct xs as [| x xs].
  - simpl. unfold Rdiv. ring.
  - assert (Hn : INR (length (x :: xs)) <> 0%R)
      by (apply not_0_INR; discriminate).
    assert (E : (INR (length (x :: xs)) * mean (x :: xs)
                 = Rsum (x :: xs))%R)
      by (unfold mean; field; exact Hn).
    rewrite E. unfold Rdiv. ring.
Qed.

Lemma Rsum_squares_scaled : forall m s xs,
  Rsum (map (fun x => (((x - m) / s) * ((x - m) / s))%R) xs)
  = (Rsum (map (fun x => ((x - m) * (x - m))%R) xs) * (/ s * / s))%R.
Proof.
  intros m s xs; induction xs as [| x xs IH].
  - simpl. ring.
  - cbn [map Rsum fold_right].
    fold (Rsum (map (fun x => (((x - m) / s) * ((x - m) / s))%R) xs)).
    fold (Rsum (map (fun x => ((x - m) * (x - m))%R) xs)).
    rewrite IH. unfold Rdiv. ring.
Qed.

Lemma variance_standardized : forall s xs,
  variance (map (fun x => ((x - mean xs) / s)%R) xs)
  = (variance xs * (/ s * / s))%R.
Proof.
  intros s xs. unfold variance at 1. rewrite mean_standardized.
  rewrite map_map. unfold mean at 1. rewrite length_map.
  erewrite map_ext.
  2:{ intros x. rewrite Rminus_0_r. reflexivity. }
  rewrite Rsum_squares_scaled. unfold variance, mean.
  rewrite ?length_map. unfold Rdiv. ring.
Qed.

Lemma Rsum_squares_nonneg : forall m xs,
  (0 <= Rsum (map (fun x => ((x - m) * (x - m))%R) xs))%R.
Proof.
  intros m xs; induction xs as [| x xs IH]; simpl; [lra |].
  fold (Rsum (map (fun x => ((x - m) * (x - m))%R) xs)).
  pose proof (Rle_0_sqr (x - m)) as H. unfold Rsqr in H. lra.
Qed.

Lemma variance_nonneg : forall xs, (0 <= variance xs)%R.
Proof.
  intros xs. unfold variance, mean. rewrite length_map.
  destruct xs as [| x xs].
  - simpl. unfold Rdiv. rewrite Rmult_0_l. lra.
  - apply Rmult_le_pos; [apply Rsum_squares_nonneg |].
    apply Rlt_le, Rinv_0_lt_compat, lt_0_INR. simpl. lia.
Qed.

Lemma Rsum_squares_zero : forall m xs,
  Rsum (map (fun x => ((x - m) * (x - m))%R) xs) = 0%R ->
  forall x, In x xs -> x = m.
Proof.
  intros m xs; induction xs as [| y xs IH]; intros H x Hx; [destruct Hx |].
  simpl in H. fold (Rsum (map (fun x => ((x - m) * (x - m))%R) xs)) in H.
  pose proof (Rsum_squares_nonneg m xs) as Hs.
  pose proof (Rle_0_sqr (y - m)) as Hy. unfold Rsqr in Hy.
  destruct Hx as [<- | Hx].
  - assert (E : ((y - m) * (y - m) = 0)%R) by lra.
    apply Rmult_integral in E. lra.
  - apply IH; [lra | assumption].
Qed.

Lemma variance_zero : forall xs,
  variance xs = 0%R -> forall x, In x xs -> x = mean xs.
Proof.
  intros xs H x Hx. apply (Rsum_squares_zero (mean xs) xs); [| exact Hx].
  unfold variance, mean at 1 in H. rewrite length_map in H.
  destruct xs as [| y xs]; [destruct Hx |].
  assert (Hn : INR (length (y :: xs)) <> 0%R)
    by (apply not_0_INR; discriminate).
  unfold Rdiv in H. apply Rmult_integral in H as [H | H]; [exact H |].
  exfalso. apply (Rinv_neq_0_compat _ Hn). exact H.
Qed.

(** A column standardized with its own mean and scale has mean 0, and
    variance 1 unless it is constant, in which case it is 0 throughout. *)
Lemma fit_column_standardized : forall xs,
  let zs := map (fun x => ((x - fst (fit_column xs)) / snd (fit_column xs))%R)
                xs in
  mean zs = 0%R /\
  (variance zs = 1%R \/ forall z, In z zs -> z = 0%R).
Proof.
  intros xs. cbv zeta. cbn [fit_column fst snd]. split.
  - apply mean_standardized.
  - unfold handle_zeros_in_scale.
    pose proof (variance_nonneg xs) as Hv.
    destruct (Req_dec_T (sqrt (variance xs)) 0) as [E | E].
    + right. apply sqrt_eq_0 in E; [| exact Hv].
      intros z Hz. apply in_map_iff in Hz as (x & <- & Hx).
      rewrite (variance_zero xs E x Hx). unfold Rdiv. ring.
    + left. rewrite variance_standardized.
      rewrite <- Rinv_mult, sqrt_sqrt by exact Hv.
      apply Rinv_r. intros E0. apply E. rewrite E0. apply sqrt_0.
Qed.


Lemma transformed_real_column : forall df w w' out rs i c,
  df < length (frames w) ->
  transform_inputs df w = (w', Ok out) ->
  _real_scalers (self w) = Some rs ->
  nth_error real_inputs i = Some c ->
  exists col xs ms,
    df_getitem (frame_of w df) c = Ok col /\
    mapM to_float col = Ok xs /\
    nth_error (stats rs) i = Some ms /\
    df_getitem (frame_of w' out) c = Ok (map (standardize ms) xs).
Proof.
  intros df w w' out rs i c Hdf H Hrs Hi.
  apply transformed_frame in H
    as (rs0 & enc & data & scaled & stock & codes &
        Hrs0 & _ & Hdata & Hscaled & _ & _ & Hout); [| assumption].
  assert (rs0 = rs) by congruence. subst rs0.
  apply StandardScaler_transform_Ok in Hscaled
    as (Xf & HXf & _ & Hlen & ->).
  unfold df_getitems in Hdata. apply mapM_Forall2 in Hdata.
  destruct (Forall2_nth_error_l _ _ _ _ _ Hdata Hi) as (col & Hcol & Hget).
  apply mapM_Forall2 in HXf.
  destruct (Forall2_nth_error_l _ _ _ _ _ HXf Hcol) as (xs & Hxs & Hfl).
  destruct (nth_error_same_length _ (stats rs) _ _ Hlen Hxs) as (ms & Hms).
  exists col, xs, ms. repeat split; try assumption.
  rewrite Hout. rewrite df_getitem_setitem_neq.
  - eapply df_getitem_setitems_nth.
    + exact NoDup_real_inputs.
    + exact Hi.
    + now apply scale_columns_nth.
  - intros <-. apply nth_error_In in Hi.
    apply real_inputs_not_categorical in Hi. apply Hi.
    rewrite categorical_inputs_eq. now left.
Qed.

Lemma fitted_column : forall d cols data sc i c,
  df_getitems d cols = Ok data ->
  StandardScaler_fit data = Ok sc ->
  nth_error cols i = Some c ->
  exists col xs,
    df_getitem d c = Ok col /\ mapM to_float col = Ok xs /\
    nth_error (stats sc) i = Some (fit_column xs).
Proof.
  intros d cols data sc i c Hdata Hfit Hi.
  apply StandardScaler_fit_Ok in Hfit as (Xf & HXf & _ & Hst).
  unfold df_getitems in Hdata. apply mapM_Forall2 in Hdata.
  destruct (Forall2_nth_error_l _ _ _ _ _ Hdata Hi) as (col & Hcol & Hget).
  apply mapM_Forall2 in HXf.
  destruct (Forall2_nth_error_l _ _ _ _ _ HXf Hcol) as (xs & Hxs & Hfl).
  exists col, xs. repeat split; try assumption.
  rewrite Hst. now apply map_nth_error.
Qed.

(** X8: when the table a formatter was calibrated on is transformed by
    that formatter, every real-valued input column of the result has mean
    0, and has variance 1 unless the column was constant, in which case
    it is 0 in every row. *)
Theorem X8_calibration_table_standardized : forall df w w1 w2 out,
  df < length (frames w) ->
  set_scalers df w = (w1, Ok tt) ->
  transform_inputs df w1 = (w2, Ok out) ->
  forall c, In c real_inputs ->
    exists zs,
      df_getitem (frame_of w2 out) c = Ok (map Num zs) /\
      mean zs = 0%R /\
      (variance zs = 1%R \/ forall z, In z zs -> z = 0%R).
Proof.
  intros df w w1 w2 out Hdf Hset Htr c Hc.
  apply set_scalers_Ok in Hset
    as (ids & data & rs & tdata & ts & stock &
        _ & Hdata & Hrs & _ & _ & _ & ->).
  apply In_nth_error in Hc as (i & Hi).
  destruct (fitted_column _ _ _ _ _ _ Hdata Hrs Hi)
    as (col & xs & Hcol & Hxs & Hms).
  set (w1 := {| self := calibrated_with (self w) ids rs ts stock;
                frames := frames w |}) in *.
  destruct (transformed_real_column df w1 w2 out rs i c Hdf Htr eq_refl Hi)
    as (col' & xs' & ms & Hcol' & Hxs' & Hms' & Hout).
  change (frame_of w1 df) with (frame_of w df) in Hcol'.
  assert (col' = col) by congruence. subst col'.
  assert (xs' = xs) by congruence. subst xs'.
  assert (ms = fit_column xs) by congruence. subst ms.
  exists (map (fun x => ((x - fst (fit_column xs))
                         / snd (fit_column xs))%R) xs).
  split.
  - rewrite Hout, map_map. reflexivity.
  - apply fit_column_standardized.
Qed.

(** X9: in every state a new formatter can reach through its methods, a
    call of [transform_inputs] that returns has encoded the [STOCK]
    column by integer codes below the stored number of classes, one code
    per row, and two rows have the same code exactly when their labels
    have the same string form. *)
Theorem X9_categorical_codes : forall fs calls df w' out,
  let w := after_calls {| self := __init__; frames := fs |} calls in
  df < length (frames w) ->
  transform_inputs df w = (w', Ok out) ->
  exists stock codes n,
    df_getitem (frame_of w df) "STOCK" = Ok stock /\
    df_getitem (frame_of w' out) "STOCK" = Ok codes /\
    _num_classes_per_cat_input (self w) = Some [n] /\
    length codes = length stock /\
    (forall j code, nth_error codes j = Some code ->
       exists k, code = Int (Z.of_nat k) /\ k < n) /\
    (forall j1 j2 y1 y2 c1 c2,
       nth_error stock j1 = Some y1 -> nth_error stock j2 = Some y2 ->
       nth_error codes j1 = Some c1 -> nth_error codes j2 = Some c2 ->
       (c1 = c2 <-> py_str y1 = py_str y2)).
Proof.
  intros fs calls df w' out w Hdf H.
  assert (Hinv : complete_or_unset (self w)).
  { apply after_calls_complete_or_unset. left; split; reflexivity. }
  apply transformed_frame in H
    as (rs & enc & data & scaled & stock & codes &
        _ & (cats & Hcats & Henc) & _ & _ & Hstock & Hcodes & Hout);
    [| assumption].
  destruct Hinv as [[C1 _] | (enc' & ids & rs' & ts & C1 & Hnd & C2 & _)];
    [congruence |].
  rewrite C1 in Hcats. injection Hcats as <-.
  cbn in Henc. injection Henc as ->.
  apply LabelEncoder_transform_Ok in Hcodes.
  exists stock, codes, (length (classes_ enc)).
  split; [assumption |]. split; [| split; [assumption | split; [| split]]].
  - rewrite Hout. apply df_getitem_setitem_eq.
  - apply Forall2_length in Hcodes. now rewrite length_map in Hcodes.
  - intros j code Hj.
    apply Forall2_flip in Hcodes.
    destruct (Forall2_nth_error_l _ _ _ _ _ Hcodes Hj)
      as (y & _ & k & Hk & ->).
    exists k. split; [reflexivity |].
    apply nth_error_Some. congruence.
  - intros j1 j2 y1 y2 c1 c2 Hy1 Hy2 Hc1 Hc2.
    apply (map_nth_error py_str) in Hy1, Hy2.
    destruct (Forall2_nth_error_l _ _ _ _ _ Hcodes Hy1)
      as (c1' & Hc1' & k1 & Hk1 & ->).
    destruct (Forall2_nth_error_l _ _ _ _ _ Hcodes Hy2)
      as (c2' & Hc2' & k2 & Hk2 & ->).
    rewrite Hc1 in Hc1'. injection Hc1' as ->.
    rewrite Hc2 in Hc2'. injection Hc2' as ->.
    split.
    + intros E. injection E as E. apply Nat2Z.inj in E. subst k2.
      congruence.
    + intros E. f_equal. f_equal.
      apply (proj1 (NoDup_nth_error (classes_ enc)) Hnd).
      * apply nth_error_Some. congruence.
      * congruence.
Qed.



(** *** Partitions without rows *)

Lemma select_nonempty : forall {A} m (l : list A),
  select m l <> [] -> exists i, nth_error m i = Some true.
Proof.
  intros A m; induction m as [| b m IH]; intros l H.
  - destruct l; now contradiction H.
  - destruct l as [| x l]; [now contradiction H |].
    destruct b; [now exists 0 |].
    destruct (IH l H) as (i & Hi). now exists (S i).
Qed.

Lemma scaled_partition_has_row : forall d m data Xf,
  df_getitems (df_loc d m) real_inputs = Ok data ->
  mapM (mapM to_float) data = Ok Xf -> n_samples Xf <> 0 ->
  exists i, nth_error m i = Some true.
Proof.
  intros d m data Xf Hdata HXf Hn.
  assert (Hi : nth_error real_inputs 0 = Some "PRICE_ASK_0"%string)
    by reflexivity.
  unfold df_getitems in Hdata. apply mapM_Forall2 in Hdata.
  destruct (Forall2_nth_error_l _ _ _ _ _ Hdata Hi) as (col & Hcol & Hget).
  apply mapM_Forall2 in HXf.
  destruct (Forall2_nth_error_l _ _ _ _ _ HXf Hcol) as (xs & Hxs & Hfl).
  rewrite df_getitem_df_loc in Hget.
  destruct (df_getitem d "PRICE_ASK_0") as [s | e]; [| discriminate].
  injection Hget as <-.
  apply (select_nonempty m s). intros E. apply Hn.
  destruct Xf as [| xs' Xf]; [discriminate |].
  cbn [nth_error] in Hxs. injection Hxs as Hxs. subst xs'.
  unfold n_samples. cbn [hd].
  apply mapM_length in Hfl. rewrite E in Hfl. exact Hfl.
Qed.

(** X13: [split_data] returns only if the training partition has a row:
    some value of the [DAY] column is below the validation boundary. *)
Theorem X13_split_data_needs_training_rows : forall df vb tb w w' g,
  df < length (frames w) ->
  split_data df vb tb w = (w', Ok g) ->
  exists index x,
    df_getitem (frame_of w df) "DAY" = Ok index /\
    In x index /\ cell_compare x vb = Ok Lt.
Proof.
  intros df vb tb w w' g Hdf H.
  apply split_data_train in H
    as (index & m_train & m_ge & m_lt & m_test & w1 &
        Hindex & M1 & M2 & M3 & M4 & Hfr & Hset & _); [| assumption].
  apply set_scalers_Ok in Hset
    as (ids & data & rs & tdata & ts & stock & _ & Hdata & Hrs & _).
  apply StandardScaler_fit_Ok in Hrs as (Xf & HXf & Hn & _).
  rewrite Hfr in Hdata.
  destruct (scaled_partition_has_row _ _ _ _ Hdata HXf Hn) as (i & Hi).
  assert (Hlt : i < length index).
  { rewrite <- (series_lt_length _ _ _ M1). apply nth_error_Some. congruence. }
  destruct (nth_error index i) as [x |] eqn:Hx;
    [| apply nth_error_None in Hx; lia].
  destruct (masks_rows _ _ _ _ _ _ _ M1 M2 M3 M4 i x Hx)
    as (c1 & c2 & Hc1 & _ & Ht & _).
  exists index, x. split; [assumption |].
  split; [eapply nth_error_In; eassumption |].
  rewrite Hi in Ht. injection Ht as Ht.
  destruct c1; try discriminate Ht. assumption.
Qed.

(** X14: the three tables of [split_data] can all be produced only if
    the validation partition and the test partition have a row each: some
    value of [DAY] is at least the validation boundary and below the test
    boundary, and some value is at least the test boundary. *)
Theorem X14_partitions_need_rows : forall df vb tb w w' g w2 res,
  df < length (frames w) ->
  split_data df vb tb w = (w', Ok g) ->
  consume g w' = (w2, Ok res) ->
  exists index,
    df_getitem (frame_of w df) "DAY" = Ok index /\
    (exists x c, In x index /\ cell_compare x vb = Ok c /\ c <> Lt /\
                 cell_compare x tb = Ok Lt) /\
    (exists x c, In x index /\ cell_compare x tb = Ok c /\ c <> Lt).
Proof.
  intros df vb tb w w' g w2 res Hdf H Hcons.
  apply split_data_train in H
    as (index & m_train & m_ge & m_lt & m_test & w1 &
        Hindex & M1 & M2 & M3 & M4 & _ & _ & Hfr & ->); [| assumption].
  set (n := length (frames w)) in *.
  set (d := frame_of w df) in *.
  apply consume_three in Hcons
    as (wa & wb & ra & rb & rc & Ha & Hb & Hc & _).
  pose proof Ha as Ha'. apply transform_inputs_run in Ha' as (_ & oa & Fa).
  pose proof Hb as Hb'. apply transform_inputs_run in Hb' as (_ & ob & Fb).
  assert (Hla : S n < length (frames wa)).
  { rewrite Fa, Hfr, !length_app. cbn [length]. fold n. lia. }
  assert (Hlb : S (S n) < length (frames wb)).
  { rewrite Fb, Fa, Hfr, !length_app. cbn [length]. fold n. lia. }
  assert (Ea : frame_of wa (S n) = df_loc d (mask_and m_ge m_lt)).
  { unfold frame_of. rewrite Fa, Hfr.
    rewrite app_nth1 by (rewrite length_app; cbn [length]; fold n; lia).
    rewrite app_nth2 by (fold n; lia).
    fold n. replace (S n - n) with 1 by lia. reflexivity. }
  assert (Eb : frame_of wb (S (S n)) = df_loc d m_test).
  { unfold frame_of. rewrite Fb, Fa, Hfr.
    rewrite app_nth1
      by (rewrite !length_app; cbn [length]; fold n; lia).
    rewrite app_nth1 by (rewrite length_app; cbn [length]; fold n; lia).
    rewrite app_nth2 by (fold n; lia).
    fold n. replace (S (S n) - n) with 2 by lia. reflexivity. }
  apply transform_inputs_Ok in Hb
    as (rs1 & _ & data1 & sc1 & _ & _ & _ & _ & _ & D1 & T1 & _);
    [| assumption].
  apply transform_inputs_Ok in Hc
    as (rs2 & _ & data2 & sc2 & _ & _ & _ & _ & _ & D2 & T2 & _);
    [| assumption].
  rewrite Ea in D1. rewrite Eb in D2.
  apply StandardScaler_transform_Ok in T1 as (Xf1 & X1 & N1 & _).
  apply StandardScaler_transform_Ok in T2 as (Xf2 & X2 & N2 & _).
  destruct (scaled_partition_has_row _ _ _ _ D1 X1 N1) as (i & Hi).
  destruct (scaled_partition_has_row _ _ _ _ D2 X2 N2) as (j & Hj).
  assert (Hil : i < length index).
  { rewrite <- (series_ge_length _ _ _ M2).
    rewrite <- (mask_and_length m_ge m_lt)
      by (rewrite (series_ge_length _ _ _ M2), (series_lt_length _ _ _ M3);
          reflexivity).
    apply nth_error_Some. congruence. }
  assert (Hjl : j < length index).
  { rewrite <- (series_ge_length _ _ _ M4). apply nth_error_Some. congruence. }
  destruct (nth_error index i) as [x |] eqn:Hx;
    [| apply nth_error_None in Hx; lia].
  destruct (nth_error index j) as [y |] eqn:Hy;
    [| apply nth_error_None in Hy; lia].
  destruct (masks_rows _ _ _ _ _ _ _ M1 M2 M3 M4 i x Hx)
    as (c1 & c2 & Hc1 & Hc2 & _ & Hv & _).
  destruct (masks_rows _ _ _ _ _ _ _ M1 M2 M3 M4 j y Hy)
    as (c3 & c4 & _ & Hc4 & _ & _ & Ht).
  rewrite Hi in Hv. injection Hv as Hv.
  rewrite Hj in Ht. injection Ht as Ht.
  symmetry in Hv. apply andb_true_iff in Hv as [V1 V2].
  exists index. split; [assumption | split].
  - exists x, c1. split; [eapply nth_error_In; eassumption |].
    split; [assumption |].
    split; [intros ->; discriminate V1 |].
    destruct c2; try discriminate V2. assumption.
  - exists y, c4. split; [eapply nth_error_In; eassumption |].
    split; [assumption |]. intros ->. discriminate Ht.
Qed.


Lemma select_all_false : forall {A} m (l : list A),
  (forall i b, nth_error m i = Some b -> b = false) -> select m l = [].
Proof.
  intros A m; induction m as [| b m IH]; intros l H; [reflexivity |].
  destruct l as [| x l]; [reflexivity |].
  rewrite (H 0 b eq_refl). cbn [select]. apply IH.
  intros i b' Hi. exact (H (S i) b' Hi).
Qed.

Lemma df_getitems_df_loc : forall d m cols,
  df_getitems (df_loc d m) cols =
  match df_getitems d cols with
  | Ok data => Ok (map (select m) data)
  | Err e => Err e
  end.
Proof.
  intros d m cols. unfold df_getitems.
  induction cols as [| c cols IH]; [reflexivity |].
  cbn [mapM]. rewrite df_getitem_df_loc.
  destruct (df_getitem d c) as [s | e]; [| reflexivity].
  cbn [rbind]. rewrite IH.
  destruct (mapM (df_getitem d) cols); reflexivity.
Qed.

Lemma check_array_no_rows : forall X,
  (forall col, In col X -> col = []) ->
  check_array X =
  Err (ValueError
         "Found array with 0 sample(s) while a minimum of 1 is required").
Proof.
  intros X H. unfold check_array.
  assert (E : mapM (mapM to_float) X = Ok (map (fun _ => []) X)).
  { induction X as [| col X IH]; [reflexivity |].
    cbn [mapM]. rewrite (H col (or_introl eq_refl)). cbn [mapM rbind].
    rewrite IH by (intros c Hc; apply H; now right). reflexivity. }
  rewrite E. cbn [rbind]. destruct X; reflexivity.
Qed.

Lemma transform_inputs_scale_error : forall df w rs data e,
  df < length (frames w) ->
  _real_scalers (self w) = Some rs ->
  df_getitems (frame_of w df) real_inputs = Ok data ->
  StandardScaler_transform rs data = Err e ->
  snd (transform_inputs df w) = Err e.
Proof.
  unfold frame_of. intros df w rs data e Hdf H1 H2 H3.
  unfold transform_inputs.
  fold real_inputs categorical_inputs. rewrite categorical_inputs_eq.
  msimpl. rewrite H1. msimpl. rewrite ?(nth_app_old _ _ _ Hdf).
  rewrite H2. msimpl. rewrite H3. reflexivity.
Qed.

(** X15: with a test boundary that is not above the validation boundary,
    [split_data] may return its generator, but the three tables can never
    be produced: the validation partition has no row, and scaling it
    raises the error of an array without samples. *)
Theorem X15_boundaries_out_of_order : forall df vb tb w w' g c,
  df < length (frames w) ->
  cell_compare tb vb = Ok c -> c <> Gt ->
  split_data df vb tb w = (w', Ok g) ->
  snd (consume g w') =
  Err (ValueError
         "Found array with 0 sample(s) while a minimum of 1 is required").
Proof.
  intros df vb tb w w' g c Hdf Hc Hgt H.
  apply split_data_train in H
    as (index & m_train & m_ge & m_lt & m_test & w1 &
        Hindex & M1 & M2 & M3 & M4 & Hfr1 & Hset & Hfr & ->); [| assumption].
  set (n := length (frames w)) in *.
  set (d := frame_of w df) in *.
  assert (Hn1 : n < length (frames w1)).
  { pose proof Hset as Hs. apply set_scalers_attributes in Hs
      as (? & ? & ? & ? & ? & ? & _ & _ & _ & _ & _ & _ & _ & _ & _ & _ & _ & E).
    rewrite <- E, Hfr, length_app. cbn [length]. fold n. lia. }
  destruct (calibration_table_transforms _ _ _ Hn1 Hset) as (wa & Ha).
  pose proof Hset as Hs. apply set_scalers_Ok in Hs
    as (ids & data & rs & tdata & ts & stock &
        _ & Hdata & _ & _ & _ & _ & Hw').
  rewrite Hfr1, df_getitems_df_loc in Hdata.
  destruct (df_getitems d real_inputs) as [data_d | e] eqn:Hd;
    [| discriminate].
  pose proof Ha as Ha'. apply transform_inputs_run in Ha' as (Sa & oa & Fa).
  assert (Hla : S n < length (frames wa)).
  { rewrite Fa, Hfr, !length_app. cbn [length]. fold n. lia. }
  assert (Ea : frame_of wa (S n) = df_loc d (mask_and m_ge m_lt)).
  { unfold frame_of. rewrite Fa, Hfr.
    rewrite app_nth1 by (rewrite length_app; cbn [length]; fold n; lia).
    rewrite app_nth2 by (fold n; lia).
    fold n. replace (S n - n) with 1 by lia. reflexivity. }
  assert (Hmask : forall i b,
            nth_error (mask_and m_ge m_lt) i = Some b -> b = false).
  { intros i b Hi.
    assert (Hil : i < length index).
    { rewrite <- (series_ge_length _ _ _ M2).
      rewrite <- (mask_and_length m_ge m_lt)
        by (rewrite (series_ge_length _ _ _ M2),
              (series_lt_length _ _ _ M3); reflexivity).
      apply nth_error_Some. congruence. }
    destruct (nth_error index i) as [x |] eqn:Hx;
      [| apply nth_error_None in Hx; lia].
    destruct (masks_rows _ _ _ _ _ _ _ M1 M2 M3 M4 i x Hx)
      as (c1 & c2 & Hc1 & Hc2 & _ & Hv & _).
    rewrite Hi in Hv. injection Hv as ->.
    destruct c2; try (now rewrite andb_false_r).
    rewrite (cell_compare_Lt_trans _ _ _ _ _ Hc2 Hc Hgt Hc1).
    reflexivity. }
  assert (Hb : snd (transform_inputs (S n) wa) =
               Err (ValueError
                 "Found array with 0 sample(s) while a minimum of 1 is required")).
  { apply (transform_inputs_scale_error (S n) wa rs
             (map (select (mask_and m_ge m_lt)) data_d)).
    - exact Hla.
    - rewrite Sa, Hw'. reflexivity.
    - rewrite Ea, df_getitems_df_loc, Hd. reflexivity.
    - unfold StandardScaler_transform. rewrite check_array_no_rows.
      + reflexivity.
      + intros col Hcol. apply in_map_iff in Hcol as (s & <- & _).
        now apply select_all_false. }
  cbn [map consume]. unfold mbind. fold n. rewrite Ha.
  destruct (transform_inputs (S n) wa) as [wb rb]. cbn [snd] in Hb.
  rewrite Hb. reflexivity.
Qed.


(** *** The errors of the methods *)







End Volatility.

(** ** The formatter on the example tables *)

Lemma sample_target_mean :
  ((3 + (1 + (5 + (2 + (4 + 0))))) / INR 5)%R = 3%R.
Proof. simpl. field. Qed.

(** C1, counterexample: calibrated on [sample_table], the formatter
    transforms [sample_table] into a frame whose target column differs from
    the target column of the input: its first value, 3, the mean of the
    column, has become 0. *)
Lemma C1_counterexample :
  let w1 := fst (set_scalers repr_unused parse_unused 0 sample_world) in
  let r := transform_inputs repr_unused parse_unused 0 w1 in
  snd (set_scalers repr_unused parse_unused 0 sample_world) = Ok tt /\
  snd r = Ok 1 /\
  df_getitem (frame_of w1 0) "rolling_volatility"
    = Ok [Num 3; Num 1; Num 5; Num 2; Num 4] /\
  (exists rest,
     df_getitem (frame_of (fst r) 1) "rolling_volatility"
       = Ok (Num 0 :: rest)) /\
  df_getitem (frame_of (fst r) 1) "rolling_volatility"
    <> df_getitem (frame_of w1 0) "rolling_volatility".
Proof.
  cbv zeta.
  assert (E : exists s rest,
     df_getitem
       (frame_of
          (fst (transform_inputs repr_unused parse_unused 0
                  (fst (set_scalers repr_unused parse_unused 0 sample_world))))
          1) "rolling_volatility"
     = Ok (Num ((3 - (3 + (1 + (5 + (2 + (4 + 0))))) / INR 5) / s) :: rest)).
  { eexists. eexists. reflexivity. }
  destruct E as (s & rest & E).
  rewrite sample_target_mean in E.
  replace ((3 - 3) / s)%R with 0%R in E by (unfold Rdiv; ring).
  repeat split; try reflexivity.
  - exists rest. exact E.
  - rewrite E. intros H. injection H as H _. lra.
Qed.

(** From [f = Ok x], [f] evaluating to [Ok v], replaces [x] by [v]. *)
Ltac ok_inv H v :=
  match type of H with
  | _ = Ok ?x =>
      let E := fresh "E" in
      assert (E : Ok v = Ok x) by (rewrite <- H; reflexivity);
      injection E as <-
  end.

Lemma sample_calibrated_run :
  set_scalers repr_unused parse_unused 0 sample_world
  = (fst (set_scalers repr_unused parse_unused 0 sample_world), Ok tt).
Proof. apply injective_projections; reflexivity. Qed.


(** C1, witness: the transformation of [sample_table] by the formatter
    calibrated on it keeps the identifier and the timestamp column. *)
Lemma C1_witness :
  let w1 := fst (set_scalers repr_unused parse_unused 0 sample_world) in
  let r := transform_inputs repr_unused parse_unused 0 w1 in
  0 < length (frames w1) /\
  r = (fst r, Ok 1) /\
  df_getitem (frame_of (fst r) 1) "id"
    = Ok [Int 3; Int 1; Int 3; Int 2; Int 1] /\
  df_getitem (frame_of (fst r) 1) "time"
    = Ok [Int 0; Int 1; Int 2; Int 3; Int 4].
Proof.
  cbv zeta.
  set (w1 := fst (set_scalers repr_unused parse_unused 0 sample_world)).
  set (r := transform_inputs repr_unused parse_unused 0 w1).
  assert (H0 : 0 < length (frames w1)) by (change (0 < 1); lia).
  assert (H1 : r = (fst r, Ok 1)) by (apply injective_projections; reflexivity).
  destruct (C1_transform_inputs_columns repr_unused parse_unused
              0 w1 (fst r) 1 H0 H1) as (Hid & _).
  split; [exact H0 | split; [exact H1 | split]].
  - rewrite (Hid ID "id"%string (or_introl eq_refl) eq_refl). reflexivity.
  - rewrite (Hid TIME "time"%string (or_intror eq_refl) eq_refl). reflexivity.
Defined.

(** C8, witness: the call that transforms [sample_table] leaves it as it
    was and returns a frame of the same shape at a new reference. *)
Lemma C8_witness :
  let w1 := fst (set_scalers repr_unused parse_unused 0 sample_world) in
  let r := transform_inputs repr_unused parse_unused 0 w1 in
  0 < length (frames w1) /\
  r = (fst r, Ok 1) /\
  frame_of (fst r) 0 = sample_table /\
  shape (frame_of (fst r) 1) = shape sample_table.
Proof.
  cbv zeta.
  set (w1 := fst (set_scalers repr_unused parse_unused 0 sample_world)).
  set (r := transform_inputs repr_unused parse_unused 0 w1).
  assert (H0 : 0 < length (frames w1)) by (change (0 < 1); lia).
  assert (H1 : r = (fst r, Ok 1)) by (apply injective_projections; reflexivity).
  destruct (C8_transform_inputs_copy repr_unused parse_unused
              0 w1 (fst r) (Ok 1) H0 H1) as (Hin & _ & _ & Hout).
  destruct (Hout 1 eq_refl) as (_ & _ & Hshape & _).
  split; [exact H0 | split; [exact H1 | split]].
  - rewrite Hin. reflexivity.
  - rewrite Hshape. reflexivity.
Defined.

(** C10, witness: the identifier column 3, 1, 3, 2, 1 of [sample_table]
    gives the identifiers 3, 1, 2, which are not in increasing order. *)
Lemma C10_witness :
  let r := set_scalers repr_unused parse_unused 0 sample_world in
  r = (fst r, Ok tt) /\
  identifiers (self (fst r)) = Some [Int 3; Int 1; Int 2].
Proof.
  cbv zeta.
  set (r := set_scalers repr_unused parse_unused 0 sample_world).
  assert (H1 : r = (fst r, Ok tt)) by exact sample_calibrated_run.
  destruct (C10_identifiers_first_appearance repr_unused parse_unused
              0 sample_world (fst r) H1)
    as (id_column & ids & Hcol & Hids & Hidentifiers & _).
  ok_inv Hcol ("id"%string).
  ok_inv Hids [Int 3; Int 1; Int 3; Int 2; Int 1].
  split; [exact H1 |]. rewrite Hidentifiers. reflexivity.
Defined.

(** C9, witness: two calibrations on [sample_table] store the classes
    ["7"] and ["B"], two of them, and the second leaves the formatter as
    the first left it. *)
Lemma C9_witness :
  let r := set_scalers repr_unused parse_unused 0 sample_world in
  r = (fst r, Ok tt) /\
  _cat_scalers (self (fst r))
    = Some [("STOCK"%string, {| classes_ := ["7"%string; "B"%string] |})] /\
  _num_classes_per_cat_input (self (fst r)) = Some [2] /\
  set_scalers repr_unused parse_unused 0 (fst r) = (fst r, Ok tt).
Proof.
  cbv zeta.
  set (r := set_scalers repr_unused parse_unused 0 sample_world).
  assert (H1 : r = (fst r, Ok tt)) by exact sample_calibrated_run.
  destruct (C9_categorical_determinism repr_unused parse_unused
              0 sample_world (fst r) 0 sample_world (fst r) H1 H1)
    as (stock1 & stock2 & classes & Hs1 & _ & Hcat & Hnum & _ & _ & _ & _ & Hseq).
  assert (E : Some [("STOCK"%string, {| classes_ := ["7"%string; "B"%string] |})]
              = Some [("STOCK"%string, {| classes_ := classes |})])
    by (rewrite <- Hcat; reflexivity).
  injection E as <-.
  repeat split; assumption.
Defined.


Lemma sample_split_run :
  split_data repr_unused parse_unused 0 (Int 7) (Int 8) sample_world
  = (fst (split_data repr_unused parse_unused 0 (Int 7) (Int 8) sample_world),
     Ok (map (transform_inputs repr_unused parse_unused) [1; 2; 3])).
Proof. apply injective_projections; reflexivity. Qed.

(** C2, witness: split at the boundaries 7 and 8, [sample_table] is
    calibrated on its two rows with [DAY] 5 and 6: the identifiers are 3
    and 1, the target scaler holds the mean of 3 and 1. *)
Lemma C2_witness :
  let r := split_data repr_unused parse_unused 0 (Int 7) (Int 8) sample_world in
  0 < length (frames sample_world) /\
  r = (fst r, Ok (map (transform_inputs repr_unused parse_unused) [1; 2; 3])) /\
  identifiers (self (fst r)) = Some [Int 3; Int 1] /\
  _target_scaler (self (fst r)) =
    Some {| stats :=
      [(mean [3%R; 1%R],
        handle_zeros_in_scale (sqrt (variance [3%R; 1%R])))] |}.
Proof.
  cbv zeta.
  set (r := split_data repr_unused parse_unused 0 (Int 7) (Int 8) sample_world).
  assert (H0 : 0 < length (frames sample_world)) by (change (0 < 1); lia).
  assert (H1 : r = (fst r, Ok (map (transform_inputs repr_unused parse_unused)
                                   [1; 2; 3])))
    by exact sample_split_run.
  destruct (C2_calibration_from_train_only repr_unused parse_unused
              0 (Int 7) (Int 8) sample_world (fst r) _ H0 H1)
    as (index & m_train & train & Hindex & Hm & -> &
        (ids & data & Xf & target & xt & stock &
         Hids & _ & _ & Htarget & Hxt & _ & Hidentifiers & _ & Hts & _) & _).
  ok_inv Hindex [Int 5; Int 6; Int 7; Int 8; Int 9].
  ok_inv Hm [true; true; false; false; false].
  ok_inv Hids [Int 3; Int 1].
  ok_inv Htarget [Num 3; Num 1].
  ok_inv Hxt [3%R; 1%R].
  split; [exact H0 | split; [exact H1 | split]].
  - rewrite Hidentifiers. reflexivity.
  - exact Hts.
Defined.





(** X2, witness: calibrating on [sample_table] and transforming it leaves
    the table at its reference as it was. *)
Lemma X2_witness :
  let calls := [Call_set_scalers 0; Call_transform_inputs 0] in
  let w := after_calls repr_unused parse_unused sample_world calls in
  0 < length (frames sample_world) /\
  frame_of w 0 = sample_table /\
  1 <= length (frames w).
Proof.
  cbv zeta.
  assert (H0 : 0 < length (frames sample_world)) by (change (0 < 1); lia).
  destruct (X2_existing_frames_unchanged repr_unused parse_unused
              sample_world [Call_set_scalers 0; Call_transform_inputs 0]
              0 H0) as (E & L).
  split; [exact H0 | split; [rewrite E; reflexivity | exact L]].
Defined.

(** X4, witness: calibration on [no_stock_table] raises
    [KeyError('STOCK')] and leaves a formatter with identifiers and
    scalers but without encoders. *)
Lemma X4_witness :
  let w := {| self := __init__; frames := [no_stock_table] |} in
  let r := set_scalers repr_unused parse_unused 0 w in
  r = (fst r, Err (KeyError "STOCK")) /\
  (exists ids rs ts,
     identifiers (self (fst r)) = Some ids /\
     _real_scalers (self (fst r)) = Some rs /\
     _target_scaler (self (fst r)) = Some ts) /\
  _cat_scalers (self (fst r)) = None /\
  frames (fst r) = [no_stock_table].
Proof.
  cbv zeta.
  set (w := {| self := __init__; frames := [no_stock_table] |}).
  set (r := set_scalers repr_unused parse_unused 0 w).
  assert (H1 : r = (fst r, Err (KeyError "STOCK")))
    by (apply injective_projections; reflexivity).
  destruct (X4_failed_calibration_is_partial repr_unused parse_unused
              0 w (fst r) H1) as (Hset & Hcat & Hfr & _).
  split; [exact H1 | split; [exact Hset | split]].
  - rewrite Hcat. reflexivity.
  - rewrite Hfr. reflexivity.
Defined.

(** X7, witness: [sample_table] is transformed by the formatter
    calibrated on it. *)
Lemma X7_witness :
  let r := set_scalers repr_unused parse_unused 0 sample_world in
  0 < length (frames sample_world) /\
  r = (fst r, Ok tt) /\
  exists w2, transform_inputs repr_unused parse_unused 0 (fst r) = (w2, Ok 1).
Proof.
  cbv zeta.
  set (r := set_scalers repr_unused parse_unused 0 sample_world).
  assert (H0 : 0 < length (frames sample_world)) by (change (0 < 1); lia).
  assert (H1 : r = (fst r, Ok tt)) by exact sample_calibrated_run.
  destruct (X7_calibration_table_transforms repr_unused parse_unused
              0 sample_world (fst r) H0 H1) as (w2 & H2).
  split; [exact H0 | split; [exact H1 |]]. exists w2. exact H2.
Defined.

(** X8, witness: in [sample_table] transformed by the formatter
    calibrated on it, the target column has mean 0. *)
Lemma X8_witness :
  let r := set_scalers repr_unused parse_unused 0 sample_world in
  let r2 := transform_inputs repr_unused parse_unused 0 (fst r) in
  0 < length (frames sample_world) /\
  r = (fst r, Ok tt) /\
  r2 = (fst r2, Ok 1) /\
  In "rolling_volatility"%string real_inputs /\
  exists zs,
    df_getitem (frame_of (fst r2) 1) "rolling_volatility" = Ok (map Num zs) /\
    mean zs = 0%R.
Proof.
  cbv zeta.
  set (r := set_scalers repr_unused parse_unused 0 sample_world).
  set (r2 := transform_inputs repr_unused parse_unused 0 (fst r)).
  assert (H0 : 0 < length (frames sample_world)) by (change (0 < 1); lia).
  assert (H1 : r = (fst r, Ok tt)) by exact sample_calibrated_run.
  assert (H2 : r2 = (fst r2, Ok 1))
    by (apply injective_projections; reflexivity).
  assert (H3 : In "rolling_volatility"%string real_inputs)
    by (cbv; tauto).
  destruct (X8_calibration_table_standardized repr_unused parse_unused
              0 sample_world (fst r) (fst r2) 1 H0 H1 H2 _ H3)
    as (zs & Hzs & Hmean & _).
  split; [exact H0 | split; [exact H1 | split; [exact H2 | split;
    [exact H3 |]]]].
  exists zs. split; assumption.
Defined.

(** X9, witness: the labels B, 7, B, 7, B of [sample_table] are encoded
    by codes below 2. *)
Lemma X9_witness :
  let w := after_calls repr_unused parse_unused
             {| self := __init__; frames := [sample_table] |}
             [Call_set_scalers 0] in
  let r := transform_inputs repr_unused parse_unused 0 w in
  0 < length (frames w) /\
  r = (fst r, Ok 1) /\
  _num_classes_per_cat_input (self w) = Some [2] /\
  exists codes,
    df_getitem (frame_of (fst r) 1) "STOCK" = Ok codes /\
    length codes = 5 /\
    forall j code, nth_error codes j = Some code ->
      exists k, code = Int (Z.of_nat k) /\ k < 2.
Proof.
  cbv zeta.
  set (w := after_calls repr_unused parse_unused
              {| self := __init__; frames := [sample_table] |}
              [Call_set_scalers 0]).
  set (r := transform_inputs repr_unused parse_unused 0 w).
  assert (H0 : 0 < length (frames w)) by (change (0 < 1); lia).
  assert (H1 : r = (fst r, Ok 1))
    by (apply injective_projections; reflexivity).
  destruct (X9_categorical_codes repr_unused parse_unused
              [sample_table] [Call_set_scalers 0] 0 (fst r) 1 H0 H1)
    as (stock & codes & n & Hstock & Hcodes & Hn & Hlen & Hlt & _).
  ok_inv Hstock [Str "B"; Int 7; Str "B"; Int 7; Str "B"].
  assert (E : Some [2] = Some [n]) by (rewrite <- Hn; reflexivity).
  injection E as <-.
  split; [exact H0 | split; [exact H1 | split; [exact Hn |]]].
  exists codes. split; [exact Hcodes | split; [exact Hlen | exact Hlt]].
Defined.




(** X13, witness: [sample_table] split at 7 and 8 has rows with [DAY]
    below 7. *)
Lemma X13_witness :
  let r := split_data repr_unused parse_unused 0 (Int 7) (Int 8) sample_world in
  0 < length (frames sample_world) /\
  r = (fst r, Ok (map (transform_inputs repr_unused parse_unused) [1; 2; 3])) /\
  exists x,
    In x [Int 5; Int 6; Int 7; Int 8; Int 9] /\
    cell_compare x (Int 7) = Ok Lt.
Proof.
  cbv zeta.
  set (r := split_data repr_unused parse_unused 0 (Int 7) (Int 8) sample_world).
  assert (H0 : 0 < length (frames sample_world)) by (change (0 < 1); lia).
  assert (H1 : r = (fst r, Ok (map (transform_inputs repr_unused parse_unused)
                                   [1; 2; 3])))
    by exact sample_split_run.
  destruct (X13_split_data_needs_training_rows repr_unused parse_unused
              0 (Int 7) (Int 8) sample_world (fst r) _ H0 H1)
    as (index & x & Hindex & Hx & Hlt).
  ok_inv Hindex [Int 5; Int 6; Int 7; Int 8; Int 9].
  split; [exact H0 | split; [exact H1 |]]. exists x. split; assumption.
Defined.

(** X14, witness: [sample_table] split at 7 and 8 gives three tables;
    it has a row with [DAY] in the validation range and one in the test
    range. *)
Lemma X14_witness :
  let r := split_data repr_unused parse_unused 0 (Int 7) (Int 8) sample_world in
  let g := map (transform_inputs repr_unused parse_unused) [1; 2; 3] in
  let run := consume g (fst r) in
  0 < length (frames sample_world) /\
  r = (fst r, Ok g) /\
  run = (fst run, Ok [4; 5; 6]) /\
  (exists x c, In x [Int 5; Int 6; Int 7; Int 8; Int 9] /\
               cell_compare x (Int 7) = Ok c /\ c <> Lt /\
               cell_compare x (Int 8) = Ok Lt) /\
  (exists x c, In x [Int 5; Int 6; Int 7; Int 8; Int 9] /\
               cell_compare x (Int 8) = Ok c /\ c <> Lt).
Proof.
  cbv zeta.
  set (r := split_data repr_unused parse_unused 0 (Int 7) (Int 8) sample_world).
  set (g := map (transform_inputs repr_unused parse_unused) [1; 2; 3]).
  set (run := consume g (fst r)).
  assert (H0 : 0 < length (frames sample_world)) by (change (0 < 1); lia).
  assert (H1 : r = (fst r, Ok g)) by exact sample_split_run.
  assert (Hs : snd run = Ok [4; 5; 6]) by reflexivity.
  assert (H2 : run = (fst run, Ok [4; 5; 6]))
    by (rewrite <- Hs; apply surjective_pairing).
  destruct (X14_partitions_need_rows repr_unused parse_unused
              0 (Int 7) (Int 8) sample_world (fst r) g (fst run) _ H0 H1 H2)
    as (index & Hindex & Hvalid & Htest).
  ok_inv Hindex [Int 5; Int 6; Int 7; Int 8; Int 9].
  split; [exact H0 | split; [exact H1 | split; [exact H2 |]]].
  split; [exact Hvalid | exact Htest].
Defined.

(** X15, witness: split at the boundaries 8 and 7, [sample_table] gives
    a generator whose consumption raises. *)
Lemma X15_witness :
  let r := split_data repr_unused parse_unused 0 (Int 8) (Int 7) sample_world in
  let g := map (transform_inputs repr_unused parse_unused) [1; 2; 3] in
  0 < length (frames sample_world) /\
  cell_compare (Int 7) (Int 8) = Ok Lt /\
  r = (fst r, Ok g) /\
  snd (consume g (fst r)) =
  Err (ValueError
         "Found array with 0 sample(s) while a minimum of 1 is required").
Proof.
  cbv zeta.
  set (r := split_data repr_unused parse_unused 0 (Int 8) (Int 7) sample_world).
  set (g := map (transform_inputs repr_unused parse_unused) [1; 2; 3]).
  assert (H0 : 0 < length (frames sample_world)) by (change (0 < 1); lia).
  assert (Hc : cell_compare (Int 7) (Int 8) = Ok Lt) by reflexivity.
  assert (Hgt : Lt <> Gt) by discriminate.
  assert (H1 : r = (fst r, Ok g))
    by (apply injective_projections; reflexivity).
  split; [exact H0 | split; [exact Hc | split; [exact H1 |]]].
  exact (X15_boundaries_out_of_order repr_unused parse_unused
           0 (Int 8) (Int 7) sample_world (fst r) g Lt H0 Hc Hgt H1).
Defined.

